(** * validate_drp: AFx / PA2 measurements and the performance summary

    A shallow embedding of

      - [calcsrd/afx.py]            ([measureAFx]),
      - [calcsrd/pa2.py]            ([measurePA2]),
      - [performance_summary.py]    ([ingest_data], [objects_to_table],
                                     [add_release_metric], [float_or_dash],
                                     [blank_none], [find_col_name], the
                                     choice of columns of [write_report]),
      - [matchedVisitMetricsTask.py] ([getTargetList])

    Numbers are IEEE-754 binary64 values ([spec_float] at precision 53,
    [emax] 1024), rounded to nearest even as NumPy and CPython do.
    Python objects that the code mutates or shares (dicts, the extras
    blob of a Measurement, the Measurement itself) live in a store and
    are passed by reference. *)

From Stdlib Require Import ZArith List String Ascii Bool Lia.
From Stdlib Require Import Floats.SpecFloat DecimalString Sorted Permutation.
From stdpp Require Import gmap strings list fin_maps.

Local Open Scope string_scope.
Local Open Scope Z_scope.
Local Open Scope list_scope.

(* ===================================================================== *)
(** ** binary64 arithmetic *)
(* ===================================================================== *)

Module F64.

Definition prec : Z := 53.
Definition emax : Z := 1024.

Definition t : Type := spec_float.

Definition nan : t := S754_nan.
Definition add : t -> t -> t := SFadd prec emax.
Definition sub : t -> t -> t := SFsub prec emax.
Definition mul : t -> t -> t := SFmul prec emax.
Definition div : t -> t -> t := SFdiv prec emax.
Definition abs : t -> t := SFabs.
Definition ltb : t -> t -> bool := SFltb.
Definition leb : t -> t -> bool := SFleb.
(** [x > y] is [y < x]; both are false as soon as one side is NaN. *)
Definition gtb (x y : t) : bool := SFltb y x.

Definition is_nan (x : t) : bool :=
  match x with S754_nan => true | _ => false end.

(** Conversion of an integer, rounded to nearest even. *)
Definition of_Z (z : Z) : t := binary_normalize prec emax z 0 false.

(** Correctly rounded value of [(-1)^s * d * 10^e] for a decimal
    integer [d >= 0]; this is what CPython's [strtod] returns. *)
Definition of_decimal (s : bool) (d : Z) (e : Z) : t :=
  match d with
  | Z0 => S754_zero s
  | Zneg _ => S754_nan
  | Zpos p =>
      match e with
      | Zneg n =>
          let '(q, e', l) :=
            SFdiv_core_binary prec emax (Zpos p) 0 (Z.pow_pos 10 n) 0 in
          binary_round_aux prec emax s q e' l
      | _ => binary_round prec emax s (Z.to_pos (Zpos p * 10 ^ e)) 0
      end
  end.

(** [floor x] as an integer, for finite [x]. *)
Definition floor (x : t) : option Z :=
  match x with
  | S754_zero _ => Some 0
  | S754_finite s m e =>
      let z := if s then Zneg m else Zpos m in
      Some (match e with
            | Zneg n => Z.shiftr z (Zpos n)
            | _ => z * 2 ^ e
            end)
  | _ => None
  end.

Definition is_finite (x : t) : bool :=
  match x with
  | S754_zero _ | S754_finite _ _ _ => true
  | _ => false
  end.

End F64.

Abbreviation float := F64.t.

(* ===================================================================== *)
(** ** Text: decimal rendering and Python's [float(str)] *)
(* ===================================================================== *)

Definition string_of_N (n : N) : string :=
  NilZero.string_of_uint (N.to_uint n).

Definition digit_char (d : Z) : ascii :=
  ascii_of_N (48 + Z.to_N d).

(** [round(|x| * 100)] to the nearest integer, ties to even, from the exact
    value [m * 2^e] of the float. *)
Definition round_half_even_div (num den : Z) : Z :=
  let q := num / den in
  let r := num mod den in
  match 2 * r ?= den with
  | Lt => q
  | Gt => q + 1
  | Eq => if Z.even q then q else q + 1
  end.

Definition hundredths (m : positive) (e : Z) : Z :=
  match e with
  | Zneg n => round_half_even_div (Zpos m * 100) (Z.pow_pos 2 n)
  | _ => Zpos m * 2 ^ e * 100
  end.

Definition fixed2 (neg : bool) (h : Z) : string :=
  ((if neg then "-" else "") ++
   string_of_N (Z.to_N (h / 100)) ++ "." ++
   String (digit_char (h mod 100 / 10))
          (String (digit_char (h mod 10)) EmptyString))%string.

(** ['{:.2f}'.format(x)] for a float [x]. *)
Definition format_2f (x : float) : string :=
  match x with
  | S754_nan => "nan"
  | S754_infinity false => "inf"
  | S754_infinity true => "-inf"
  | S754_zero s => fixed2 s 0
  | S754_finite s m e => fixed2 s (hundredths m e)
  end.

(** *** [float(s)] on a string *)

Definition is_space (c : ascii) : bool :=
  let n := N_of_ascii c in
  ((9 <=? n) && (n <=? 13) || (n =? 32))%N.

Definition is_digit (c : ascii) : bool :=
  let n := N_of_ascii c in ((48 <=? n) && (n <=? 57))%N.

Definition digit_val (c : ascii) : Z := Z.of_N (N_of_ascii c) - 48.

Definition lower (c : ascii) : ascii :=
  let n := N_of_ascii c in
  if ((65 <=? n) && (n <=? 90))%N then ascii_of_N (n + 32) else c.

Fixpoint lstrip (s : list ascii) : list ascii :=
  match s with
  | c :: s' => if is_space c then lstrip s' else s
  | [] => []
  end.

Definition strip (s : list ascii) : list ascii :=
  rev (lstrip (rev (lstrip s))).

(** Longest prefix of decimal digits: its value, its length, the rest. *)
Fixpoint take_digits (acc : Z) (n : Z) (s : list ascii)
  : Z * Z * list ascii :=
  match s with
  | c :: s' =>
      if is_digit c then take_digits (10 * acc + digit_val c) (n + 1) s'
      else (acc, n, s)
  | [] => (acc, n, [])
  end.

Definition take_sign (s : list ascii) : bool * list ascii :=
  match s with
  | "-"%char :: s' => (true, s')
  | "+"%char :: s' => (false, s')
  | _ => (false, s)
  end.

(** The optional exponent part [e[+-]digits]; [None] when malformed. *)
Definition take_exponent (s : list ascii) : option Z :=
  match s with
  | [] => Some 0
  | c :: s' =>
      if Ascii.eqb (lower c) "e" then
        let '(neg, s'') := take_sign s' in
        let '(v, n, rest) := take_digits 0 0 s'' in
        match rest with
        | [] => if Z.eqb n 0 then None else Some (if neg then - v else v)
        | _ => None
        end
      else None
  end.

(** The underscores that group digits: each must follow a digit and be
    followed by one, and they are then left out of the text that is parsed;
    [None] when one is misplaced. [prev] is the character before [s]. *)
Fixpoint drop_underscores (prev : ascii) (s : list ascii)
  : option (list ascii) :=
  match s with
  | [] => if Ascii.eqb prev "_" then None else Some []
  | c :: s' =>
      if Ascii.eqb c "_" then
        if is_digit prev then drop_underscores c s' else None
      else if Ascii.eqb prev "_" && negb (is_digit c) then None
      else option_map (cons c) (drop_underscores c s')
  end.

(** The text of a number once the white space around it and the
    underscores in it are gone: a sign, then [inf], [infinity] or [nan] in
    any case, or digits with at most one point and an optional exponent. *)
Definition float_of_digits (s0 : list ascii) : option float :=
  let '(neg, s) := take_sign s0 in
  let name := string_of_list_ascii (map lower s) in
  if String.eqb name "inf" || String.eqb name "infinity" then Some (S754_infinity neg)
  else if String.eqb name "nan" then Some S754_nan
  else
    let '(ip, ni, s1) := take_digits 0 0 s in
    let '(m, nf, s2) :=
      match s1 with
      | "."%char :: s1' =>
          let '(m, n, s2) := take_digits ip ni s1' in (m, n - ni, s2)
      | _ => (ip, 0, s1)
      end in
    if Z.eqb (ni + nf) 0 then None
    else
      match take_exponent s2 with
      | Some e => Some (F64.of_decimal neg m (e - nf))
      | None => None
      end.

(** [float(str)] on a text of ASCII characters: white space at both ends
    is dropped, then the underscores between digits (['1_000'] reads as
    1000), and what is left is read as a number. *)
Definition float_of_str (str : string) : option float :=
  match drop_underscores "000"%char (strip (list_ascii_of_string str)) with
  | Some s => float_of_digits s
  | None => None
  end.

(* ===================================================================== *)
(** ** Python results, NumPy arrays, astropy quantities *)
(* ===================================================================== *)

Inductive exn : Type :=
| KeyError (key : string)
| TypeError
| ValueError
| IndexError
| UnitConversionError
| OverflowError
| IOError (file : string).

(** Outcome of pure code that may raise. *)
Inductive Result (A : Type) : Type :=
| Ok (a : A)
| Err (e : exn).
Arguments Ok {A} a.
Arguments Err {A} e.

Definition rbind {A B} (r : Result A) (k : A -> Result B) : Result B :=
  match r with
  | Ok a => k a
  | Err e => Err e
  end.

Declare Scope result_scope.
Delimit Scope result_scope with result.
Notation "'try' x <- r ; k" := (rbind r (fun x => k))
  (at level 10, x name, r at level 100, k at level 200) : result_scope.

(** An astropy unit, by name. *)
Definition Unit : Type := string.

Definition percent : Unit := "percent".

(** The three shapes of array the measurements hold. *)
Inductive ndarray : Type :=
| Scalar (x : float)
| Arr1 (xs : list float)
| Arr2 (rows : list (list float)).

(** [a.ravel()]: the elements in C order. *)
Definition ravel (a : ndarray) : list float :=
  match a with
  | Scalar x => [x]
  | Arr1 xs => xs
  | Arr2 rows => concat rows
  end.

(** [astropy.units.Quantity]: a value with its unit. *)
Record Quantity (A : Type) : Type := mkQuantity { value : A; unit : Unit }.
Arguments mkQuantity {A} value unit.
Arguments value {A} q.
Arguments unit {A} q.

(** [lsst.verify.Datum]. *)
Record Datum : Type := mkDatum {
  datum_quantity : Quantity ndarray;
  datum_description : string
}.

(** [np.isnan] on a scalar. *)
Definition np_isnan (x : float) : bool := F64.is_nan x.

(** [np.abs], elementwise. *)
Definition np_abs (xs : list float) : list float := map F64.abs xs.

Definition count_true (mask : list bool) : Z :=
  Z.of_nat (length (List.filter (fun b => b) mask)).

(** [np.mean] of a boolean array: the sum is accumulated in float64 (the
    count of [True], exact below 2^53) and divided by the size; the mean of
    an empty array is 0/0 = NaN. *)
Definition np_mean (mask : list bool) : float :=
  F64.div (F64.of_Z (count_true mask)) (F64.of_Z (Z.of_nat (length mask))).

(** [q[0, :]] on the value of a Quantity: needs two axes and a first row.
    NumPy refuses the index with IndexError; for a scalar value astropy's
    [Quantity.__getitem__] turns that IndexError into TypeError. *)
Definition row0 (a : ndarray) : Result (list float) :=
  match a with
  | Arr2 (r :: _) => Ok r
  | Scalar _ => Err TypeError
  | Arr1 _ | Arr2 [] => Err IndexError
  end.

(** *** [np.percentile(a, q)], linear interpolation *)

Fixpoint insert_sorted (x : float) (l : list float) : list float :=
  match l with
  | [] => [x]
  | y :: l' => if F64.leb x y then x :: l else y :: insert_sorted x l'
  end.

(** [np.sort]: ascending; a NaN compares false with everything and so
    is carried to the end. *)
Definition np_sort (l : list float) : list float :=
  fold_right insert_sorted [] l.

Definition f100 : float := Eval vm_compute in F64.of_Z 100.
Definition f1 : float := Eval vm_compute in F64.of_Z 1.
Definition f0 : float := Eval vm_compute in F64.of_Z 0.

(** NumPy's [_percentile] with [interpolation='linear']:
    - [q] outside [0, 100] is a [ValueError];
    - the virtual index is [q / 100 * (N - 1)]; its floor and the next
      index (clipped to [N - 1]) select two order statistics of the sorted
      data, weighted by [1 - w] and [w], [w] the fractional part;
    - a NaN in the data gives NaN. *)
Definition np_percentile (a : list float) (q : float) : Result float :=
  if F64.ltb q f0 || F64.ltb f100 q then Err ValueError
  else
    let ap := np_sort a in
    let Nx := Z.of_nat (length ap) in
    let indices := F64.mul (F64.div q f100) (F64.of_Z (Nx - 1)) in
    match F64.floor indices with
    | None => Err IndexError
    | Some below =>
        let above := Z.min (below + 1) (Nx - 1) in
        if (below <? 0) || (Nx <=? below) then Err IndexError
        else
          match ap !! Z.to_nat below, ap !! Z.to_nat above with
          | Some x_below, Some x_above =>
              let weights_above := F64.sub indices (F64.of_Z below) in
              let weights_below := F64.sub f1 weights_above in
              if existsb np_isnan ap then Ok F64.nan
              else Ok (F64.add (F64.mul x_below weights_below)
                               (F64.mul x_above weights_above))
          | _, _ => Err IndexError
          end
    end.

(** *** Quantity arithmetic *)

Section Astropy.

(** The factor astropy multiplies by to convert between two distinct
    commensurable units; [None] when the units do not convert. *)
Variable unit_scale : Unit -> Unit -> option float.

(** [q.to(u).value]: no arithmetic when the unit is already [u]. *)
Definition to_value (x : float) (from to : Unit) : Result float :=
  if decide (from = to) then Ok x
  else match unit_scale from to with
       | Some k => Ok (F64.mul x k)
       | None => Err UnitConversionError
       end.

(** [a + b]: in the unit of [a]. *)
Definition quantity_add (a b : Quantity float) : Result (Quantity float) :=
  (try vb <- to_value (value b) (unit b) (unit a);
   Ok (mkQuantity (F64.add (value a) vb) (unit a)))%result.

(** [a - b]: in the unit of [a]. *)
Definition quantity_sub (a b : Quantity float) : Result (Quantity float) :=
  (try vb <- to_value (value b) (unit b) (unit a);
   Ok (mkQuantity (F64.sub (value a) vb) (unit a)))%result.

(** [a > b] for an array [a] and a scalar [b]: the mask, in C order. *)
Definition quantity_gt (a : Quantity ndarray) (b : Quantity float)
  : Result (list bool) :=
  (try vb <- to_value (value b) (unit b) (unit a);
   Ok (map (fun x => F64.gtb x vb) (ravel (value a))))%result.

End Astropy.

(* ===================================================================== *)
(** ** Metrics, and the store of Python objects *)
(* ===================================================================== *)

(** A specification of a metric: the threshold. *)
Record Specification : Type := mkSpecification {
  spec_quantity : Quantity float
}.

(** A metric definition; [get_spec level filter_name] raises when the
    metric has no specification at that level for that filter. *)
Record Metric : Type := mkMetric {
  name : string;
  operator_str : string;
  get_spec : string -> string -> Result Specification
}.

Definition loc : Type := positive.

(** A [Measurement] object: its extras are a mapping object of their own,
    held by reference. *)
Record MeasurementObj : Type := mkMeasurementObj {
  metric : Metric;
  quantity : option (Quantity float);
  extras : loc
}.

Inductive object : Type :=
| ODict (items : gmap string Datum)
| OMeasurement (m : MeasurementObj).

Abbreviation heap := (gmap loc object).

(** Outcome of a call: a value or an exception, with the store as the
    call left it. *)
Inductive outcome (A : Type) : Type :=
| Return (a : A) (h : heap)
| Raise (e : exn) (h : heap).
Arguments Return {A} a h.
Arguments Raise {A} e h.

Definition M (A : Type) : Type := heap -> outcome A.

Definition ret {A} (a : A) : M A := fun h => Return a h.

Definition raise {A} (e : exn) : M A := fun h => Raise e h.

Definition bind {A B} (c : M A) (k : A -> M B) : M B :=
  fun h => match c h with
           | Return a h' => k a h'
           | Raise e h' => Raise e h'
           end.

Definition lift {A} (r : Result A) : M A :=
  match r with
  | Ok a => ret a
  | Err e => raise e
  end.

Declare Scope py_scope.
Delimit Scope py_scope with py.
Notation "'do' x <- c ; k" := (bind c (fun x => k))
  (at level 10, x name, c at level 100, k at level 200) : py_scope.
Notation "'run' c ; k" := (bind c (fun _ => k))
  (at level 10, c at level 100, k at level 200) : py_scope.
Local Open Scope py_scope.

(** Allocation at an address the store does not use. *)
Definition alloc (o : object) : M loc :=
  fun h => let l := fresh (dom h) in Return l (<[l := o]> h).

(** [{}] *)
Definition new_dict : M loc := alloc (ODict ∅).

Definition read_dict (d : loc) : M (gmap string Datum) :=
  fun h => match h !! d with
           | Some (ODict items) => Return items h
           | _ => Raise TypeError h
           end.

(** [d[key] = v] *)
Definition dict_setitem (d : loc) (key : string) (v : Datum) : M Datatypes.unit :=
  (do items <- read_dict d;
   fun h => Return tt (<[d := ODict (<[key := v]> items)]> h)).

(** [d[key]] *)
Definition dict_getitem (d : loc) (key : string) : M Datum :=
  (do items <- read_dict d;
   match items !! key with
   | Some v => ret v
   | None => raise (KeyError key)
   end).

(** [d.update(src)]: every item of [src] is written into [d]; the keys
    [d] has in common with [src] take the value of [src]. *)
Definition dict_update (d src : loc) : M Datatypes.unit :=
  (do new <- read_dict src;
   do items <- read_dict d;
   fun h => Return tt (<[d := ODict (new ∪ items)]> h)).

Definition read_measurement (m : loc) : M MeasurementObj :=
  fun h => match h !! m with
           | Some (OMeasurement o) => Return o h
           | _ => Raise TypeError h
           end.

(** [Measurement(metric, quantity, extras=datums)]: the constructor
    copies the items of [datums] into the extras blob of the new object. *)
Definition Measurement (metric : Metric) (q : Quantity float) (datums : loc)
  : M loc :=
  (do items <- read_dict datums;
   do blob <- alloc (ODict items);
   alloc (OMeasurement (mkMeasurementObj metric (Some q) blob))).

(** [Datum(quantity=q, description=d)] for a scalar quantity. *)
Definition Datum_of (q : Quantity float) (description : string) : Datum :=
  mkDatum (mkQuantity (Scalar (value q)) (unit q)) description.

(** The object with the ADx specification: its datum. *)
Record ADx : Type := mkADx { datum : Datum }.

(** A threshold specification. *)
Record ThresholdSpecification : Type := mkThresholdSpecification {
  threshold : Quantity float
}.

(* ===================================================================== *)
(** ** calcsrd/afx.py and calcsrd/pa2.py *)
(* ===================================================================== *)

Section Measurements.

Variable unit_scale : Unit -> Unit -> option float.

(** [measureAFx(metric, amx, adx, adx_spec)] *)
Definition measureAFx (m : Metric) (amx : loc) (adx : ADx)
           (adx_spec : ThresholdSpecification) : M loc :=
  (do datums <- new_dict;
   run dict_setitem datums "ADx" (datum adx);
   do amx_obj <- read_measurement amx;
   do amx_quantity <- match quantity amx_obj with
                      | Some q => ret q
                      | None => raise TypeError
                      end;
   do q <- (if negb (np_isnan (value amx_quantity)) then
              do rms <- dict_getitem (extras amx_obj) "rmsDistMas";
              do limit <- lift (quantity_add unit_scale amx_quantity
                                             (threshold adx_spec));
              do mask <- lift (quantity_gt unit_scale
                                           (datum_quantity rms) limit);
              ret (mkQuantity (F64.mul f100 (np_mean mask)) percent)
            else
              ret (mkQuantity F64.nan percent));
   run dict_update datums (extras amx_obj);
   Measurement m q datums).

(** [measurePA2(metric, pa1, pf1_thresh)] *)
Definition measurePA2 (m : Metric) (pa1 : loc) (pf1_thresh : Quantity float)
  : M loc :=
  (do datums <- new_dict;
   run dict_setitem datums "pf1_thresh"
     (Datum_of pf1_thresh "Threshold from the PF1 specification");
   do pa1_obj <- read_measurement pa1;
   do magDiff <- dict_getitem (extras pa1_obj) "magDiff";
   do magDiffs <- lift (row0 (value (datum_quantity magDiff)));
   do pf1Percentile <- lift (quantity_sub unit_scale
                            (mkQuantity f100 percent) pf1_thresh);
   do p <- lift (np_percentile (np_abs magDiffs) (value pf1Percentile));
   Measurement m (mkQuantity p (unit (datum_quantity magDiff))) datums).

End Measurements.

(** *** What a caller can read off a result *)

(** A measurement as read through its reference: the metric, the quantity
    and the items of its extras. *)
Record MeasurementView : Type := mkView {
  view_metric : Metric;
  view_quantity : option (Quantity float);
  view_extras : gmap string Datum
}.

Definition deref (h : heap) (l : loc) : option MeasurementView :=
  match h !! l with
  | Some (OMeasurement o) =>
      match h !! extras o with
      | Some (ODict items) => Some (mkView (metric o) (quantity o) items)
      | _ => None
      end
  | _ => None
  end.

(** The value a call produced: the returned measurement, read in the store
    the call left, or the exception. *)
Definition result_of (o : outcome loc) : Result (option MeasurementView) :=
  match o with
  | Return l h => Ok (deref h l)
  | Raise e _ => Err e
  end.

Definition final_heap {A} (o : outcome A) : heap :=
  match o with
  | Return _ h => h
  | Raise _ h => h
  end.

(** Number of entries of an array strictly greater than a limit. *)
Definition count_above (xs : list float) (limit : float) : Z :=
  Z.of_nat (length (List.filter (fun x => F64.gtb x limit) xs)).

(* ===================================================================== *)
(** ** performance_summary.py *)
(* ===================================================================== *)

Module PerformanceSummary.

(** A measurement as a deserialized Job holds it. *)
Record Measurement : Type := mkMeasurement {
  spec_name : option string;
  metric : Metric;
  quantity : option (Quantity float);
  unit : option Unit
}.

Record Job : Type := mkJob { measurements : list Measurement }.

(** A Python [dict] with string keys: the items in insertion order, each key
    once. *)
Definition dict (V : Type) : Type := list (string * V).

(** [d[k] = v]: a key already present keeps its place and takes the new
    value; a new key goes to the end. *)
Fixpoint dict_set {V} (k : string) (v : V) (d : dict V) : dict V :=
  match d with
  | [] => [(k, v)]
  | (k', v') :: d' =>
      if String.eqb k k' then (k, v) :: d' else (k', v') :: dict_set k v d'
  end.

Fixpoint dict_get {V} (k : string) (d : dict V) : option V :=
  match d with
  | [] => None
  | (k', v') :: d' => if String.eqb k k' then Some v' else dict_get k d'
  end.

Definition keys {V} (d : dict V) : list string := map fst d.

Section Ingest.

(** The two helpers of [validate.py]: reading a Job from a JSON file and
    finding its filter name; either may raise. *)
Variable load_json_output : string -> Result Job.
Variable get_filter_name_from_job : Job -> Result string.

(** The loop of [ingest_data], from a given state of [jobs]. *)
Fixpoint ingest_loop (filenames : list string) (jobs : dict Job)
  : Result (dict Job) :=
  match filenames with
  | [] => Ok jobs
  | file :: rest =>
      (try job <- load_json_output file;
       try filter_name <- get_filter_name_from_job job;
       ingest_loop rest (dict_set filter_name job jobs))%result
  end.

Definition ingest_data (filenames : list string) : Result (dict Job) :=
  ingest_loop filenames [].

End Ingest.

(** A cell of the table, as the value its row was built with. (astropy
    holds a column as one array: in a Value column with a dash in it the
    numbers are kept as their text, which [float] reads back as the same
    numbers; a cell here stands for the value before that.) *)
Inductive cell : Type :=
| CStr (s : string)
| CFloat (x : float)
| CNone.

Definition unit_cell (u : option Unit) : cell :=
  match u with
  | Some s => CStr s
  | None => CNone
  end.

Record Table : Type := mkTable {
  colnames : list string;
  rows : list (list cell)
}.

(** The body of the inner loop for a measurement that is not skipped. *)
Definition this_row (level filter_name : string) (meas : Measurement)
  : Result (list cell) :=
  let m := metric meas in
  (try spec <- get_spec m level filter_name;
   let meas_quantity_value :=
     match quantity meas with
     | None => CStr "--"
     | Some q => CFloat (value q)
     end in
   Ok [CStr (name m); CStr filter_name; meas_quantity_value;
       unit_cell (unit meas); CStr (operator_str m);
       CFloat (value (spec_quantity spec))])%result.

(** [for meas in obj.measurements], appending to [rows]. *)
Fixpoint measurements_loop (level filter_name : string)
         (ms : list Measurement) (rows : list (list cell))
  : Result (list (list cell)) :=
  match ms with
  | [] => Ok rows
  | meas :: rest =>
      match spec_name meas with
      | Some s =>
          if negb (String.eqb s level)
          then measurements_loop level filter_name rest rows
          else (try r <- this_row level filter_name meas;
                measurements_loop level filter_name rest (rows ++ [r]))%result
      | None =>
          (try r <- this_row level filter_name meas;
           measurements_loop level filter_name rest (rows ++ [r]))%result
      end
  end.

(** [for filter_name, obj in input_objects.items()]. *)
Fixpoint objects_loop (level : string) (items : dict Job)
         (rows : list (list cell)) : Result (list (list cell)) :=
  match items with
  | [] => Ok rows
  | (filter_name, obj) :: rest =>
      (try rows' <- measurements_loop level filter_name
                                       (measurements obj) rows;
       objects_loop level rest rows')%result
  end.

(** [Table(rows=rows, names=names)]: the columns are taken from the rows.
    Without a row there is no column for the names to go with, and astropy
    raises ValueError. *)
Definition Table_of_rows (rows : list (list cell)) (names : list string)
  : Result Table :=
  match rows with
  | [] => Err ValueError
  | _ :: _ => Ok (mkTable names rows)
  end.

(** [output.add_column(Column(['']*len(output), name=...))]. *)
Definition add_column (name : string) (t : Table) : Table :=
  mkTable (colnames t ++ [name]) (map (fun r => r ++ [CStr EmptyString]) (rows t)).

Definition objects_to_table (input_objects : dict Job) (level : string)
  : Result Table :=
  (try rows <- objects_loop level input_objects [];
   let srd_requirement_col_name :=
     String.append "SRD Requirement: " level in
   let col_names := ["Metric"; "Filter"; "Value"; "Unit"; "Operator";
                     srd_requirement_col_name] in
   try output <- Table_of_rows rows col_names;
   Ok (add_column "Comments" output))%result.

(** *** [float_or_dash] *)

(** The values a table cell or a caller may pass. *)
Inductive PyValue : Type :=
| PyNone
| PyBool (b : bool)
| PyInt (z : Z)
| PyFloat (x : float)
| PyStr (s : string)
| PyObject (repr : string).

(** [float(f)]: a number converts, a string is parsed, anything else is a
    [TypeError]. An integer beyond the range of a double overflows. *)
Definition py_float (f : PyValue) : Result float :=
  match f with
  | PyNone => Err TypeError
  | PyBool b => Ok (if b then f1 else f0)
  | PyInt z =>
      if F64.is_finite (F64.of_Z z) then Ok (F64.of_Z z)
      else Err OverflowError
  | PyFloat x => Ok x
  | PyStr s =>
      match float_of_str s with
      | Some x => Ok x
      | None => Err ValueError
      end
  | PyObject _ => Err TypeError
  end.

(** [float_or_dash(f)] with the default [format_string='{:.2f}']: the bare
    [except] turns every exception into the dash. *)
Definition float_or_dash (f : PyValue) : string :=
  match py_float f with
  | Ok x => format_2f x
  | Err _ => "--"
  end.

End PerformanceSummary.

(* ===================================================================== *)
(** * Properties *)
(* ===================================================================== *)

Arguments F64.add : simpl never.
Arguments F64.sub : simpl never.
Arguments F64.mul : simpl never.
Arguments F64.div : simpl never.
Arguments F64.of_Z : simpl never.
Arguments F64.of_decimal : simpl never.

(** ** The store: running the primitives *)

Lemma fresh_lookup (h : heap) : h !! fresh (dom h) = None.
Proof. apply not_elem_of_dom, is_fresh. Qed.

Lemma bind_Return {A B} (c : M A) (k : A -> M B) h a h' :
  c h = Return a h' -> bind c k h = k a h'.
Proof. unfold bind. now intros ->. Qed.

Lemma bind_Raise {A B} (c : M A) (k : A -> M B) h e h' :
  c h = Raise e h' -> bind c k h = Raise e h'.
Proof. unfold bind. now intros ->. Qed.

Lemma read_dict_run d items (h : heap) :
  h !! d = Some (ODict items) -> read_dict d h = Return items h.
Proof. unfold read_dict. now intros ->. Qed.

Lemma read_measurement_run l o (h : heap) :
  h !! l = Some (OMeasurement o) -> read_measurement l h = Return o h.
Proof. unfold read_measurement. now intros ->. Qed.

Lemma dict_setitem_run d key v items (h : heap) :
  h !! d = Some (ODict items) ->
  dict_setitem d key v h = Return tt (<[d := ODict (<[key := v]> items)]> h).
Proof.
  intros H. unfold dict_setitem.
  now rewrite (bind_Return _ _ _ _ _ (read_dict_run _ _ _ H)).
Qed.

Lemma dict_getitem_run d key items (h : heap) :
  h !! d = Some (ODict items) ->
  dict_getitem d key h =
  match items !! key with
  | Some v => Return v h
  | None => Raise (KeyError key) h
  end.
Proof.
  intros H. unfold dict_getitem.
  rewrite (bind_Return _ _ _ _ _ (read_dict_run _ _ _ H)).
  now destruct (items !! key).
Qed.

Lemma dict_update_run d src new items (h : heap) :
  h !! src = Some (ODict new) -> h !! d = Some (ODict items) ->
  dict_update d src h = Return tt (<[d := ODict (new ∪ items)]> h).
Proof.
  intros Hs Hd. unfold dict_update.
  rewrite (bind_Return _ _ _ _ _ (read_dict_run _ _ _ Hs)).
  now rewrite (bind_Return _ _ _ _ _ (read_dict_run _ _ _ Hd)).
Qed.

Lemma lift_run {A} (r : Result A) (h : heap) :
  lift r h = match r with Ok a => Return a h | Err e => Raise e h end.
Proof. now destruct r. Qed.

(** The constructor returns a new object whose view is what it was given. *)
Lemma Measurement_run m q datums items (h : heap) :
  h !! datums = Some (ODict items) ->
  exists l h', Measurement m q datums h = Return l h' /\
    deref h' l = Some (mkView m (Some q) items).
Proof.
  intros H. unfold Measurement.
  rewrite (bind_Return _ _ _ _ _ (read_dict_run _ _ _ H)).
  unfold bind, alloc.
  set (b := fresh (dom h)). set (h1 := <[b := ODict items]> h).
  set (l := fresh (dom h1)).
  assert (Hl : h1 !! l = None) by apply fresh_lookup.
  assert (Hlb : l <> b).
  { intros E. rewrite E in Hl. subst h1.
    rewrite lookup_insert_eq in Hl. discriminate. }
  exists l, (<[l := OMeasurement (mkMeasurementObj m (Some q) b)]> h1).
  split; [reflexivity|].
  unfold deref. rewrite lookup_insert_eq. simpl.
  rewrite lookup_insert_ne by done. subst h1. now rewrite lookup_insert_eq.
Qed.

(** ** The store: what a call leaves in place *)

(** [keeps h0 c P]: run from any store that extends [h0], the call [c]
    leaves every object of [h0] as it was, whether it returns or raises;
    a returned value satisfies [P] in the final store. *)
Definition keeps {A} (h0 : heap) (c : M A) (P : A -> heap -> Prop) : Prop :=
  forall h, h0 ⊆ h ->
    match c h with
    | Return a h' => h0 ⊆ h' /\ P a h'
    | Raise _ h' => h0 ⊆ h'
    end.

Lemma keeps_bind {A B} h0 (c : M A) (k : A -> M B) (P : A -> Prop) Q :
  keeps h0 c (fun a _ => P a) ->
  (forall a, P a -> keeps h0 (k a) Q) ->
  keeps h0 (bind c k) Q.
Proof.
  intros Hc Hk h Hh. unfold bind. specialize (Hc h Hh).
  destruct (c h) as [a h'|e h']; [|exact Hc].
  destruct Hc as [Hsub HP]. now apply Hk.
Qed.

Lemma keeps_weaken {A} h0 (c : M A) (P Q : A -> heap -> Prop) :
  keeps h0 c P -> (forall a h, P a h -> Q a h) -> keeps h0 c Q.
Proof.
  intros Hc HPQ h Hh. specialize (Hc h Hh).
  destruct (c h); [destruct Hc; split; auto | exact Hc].
Qed.

(** A call that does not write keeps everything. *)
Lemma keeps_reader {A} h0 (c : M A) :
  (forall h, final_heap (c h) = h) -> keeps h0 c (fun _ _ => True).
Proof.
  intros Hf h Hh. specialize (Hf h).
  destruct (c h) as [a h'|e h']; simpl in Hf; subst h'; auto.
Qed.

Lemma read_dict_heap d h : final_heap (read_dict d h) = h.
Proof. unfold read_dict. now destruct (h !! d) as [[]|]. Qed.

Lemma read_measurement_heap l h : final_heap (read_measurement l h) = h.
Proof. unfold read_measurement. now destruct (h !! l) as [[]|]. Qed.

Lemma dict_getitem_heap d key h : final_heap (dict_getitem d key h) = h.
Proof.
  unfold dict_getitem, bind, read_dict.
  destruct (h !! d) as [[items|]|]; try reflexivity.
  now destruct (items !! key).
Qed.

Lemma lift_heap {A} (r : Result A) h : final_heap (lift r h) = h.
Proof. now destruct r. Qed.

Lemma keeps_alloc h0 o :
  keeps h0 (alloc o) (fun l h' => h0 !! l = None /\ h' !! l = Some o).
Proof.
  intros h Hh. unfold alloc.
  assert (Hl : h0 !! fresh (dom h) = None).
  { eapply lookup_weaken_None; [apply fresh_lookup | exact Hh]. }
  split; [|split; [exact Hl | apply lookup_insert_eq]].
  apply insert_subseteq_r; assumption.
Qed.

(** Writing to an object that [h0] does not hold keeps [h0]. *)
Lemma keeps_dict_setitem h0 d key v :
  h0 !! d = None -> keeps h0 (dict_setitem d key v) (fun _ _ => True).
Proof.
  intros Hd h Hh. unfold dict_setitem, bind, read_dict.
  destruct (h !! d) as [[items|]|]; try exact Hh.
  split; [|exact I]. now apply insert_subseteq_r.
Qed.

Lemma keeps_dict_update h0 d src :
  h0 !! d = None -> keeps h0 (dict_update d src) (fun _ _ => True).
Proof.
  intros Hd h Hh. unfold dict_update, bind, read_dict.
  destruct (h !! src) as [[new|]|]; try exact Hh.
  destruct (h !! d) as [[items|]|]; try exact Hh.
  split; [|exact I]. now apply insert_subseteq_r.
Qed.

(** A new Measurement and its extras blob are new objects. *)
Definition is_new (h0 : heap) (l : loc) (h' : heap) : Prop :=
  h0 !! l = None /\
  exists o, h' !! l = Some (OMeasurement o) /\ h0 !! extras o = None.

Lemma keeps_Measurement h0 m q datums :
  keeps h0 (Measurement m q datums) (is_new h0).
Proof.
  unfold Measurement.
  apply keeps_bind with (P := fun _ => True).
  { apply keeps_reader, read_dict_heap. }
  intros items _.
  apply keeps_bind with (P := fun b => h0 !! b = None).
  { eapply keeps_weaken; [apply keeps_alloc|]. now intros a h []. }
  intros blob Hb.
  eapply keeps_weaken; [apply keeps_alloc|].
  intros l h' [Hl Hl']. split; [exact Hl|]. eexists. split; [exact Hl'|exact Hb].
Qed.

(** ** measureAFx *)

Lemma count_true_map {A} (f : A -> bool) (xs : list A) :
  count_true (map f xs) = Z.of_nat (length (List.filter f xs)).
Proof.
  unfold count_true. f_equal.
  induction xs as [|x xs IH]; simpl; [reflexivity|].
  destruct (f x); simpl; now rewrite IH.
Qed.

Section AFx.

Variable unit_scale : Unit -> Unit -> option float.

(** The quantity [measureAFx] computes, as a function of what it reads:
    the AMx quantity, the items of the AMx extras and the threshold. *)
Definition AFx_quantity (amx_quantity : Quantity float)
           (items : gmap string Datum) (adx_spec : ThresholdSpecification)
  : Result (Quantity float) :=
  if negb (np_isnan (value amx_quantity)) then
    match items !! "rmsDistMas" with
    | None => Err (KeyError "rmsDistMas")
    | Some rms =>
        (try limit <- quantity_add unit_scale amx_quantity
                                   (threshold adx_spec);
         try mask <- quantity_gt unit_scale (datum_quantity rms) limit;
         Ok (mkQuantity (F64.mul f100 (np_mean mask)) percent))%result
    end
  else Ok (mkQuantity F64.nan percent).

(** On a well-formed AMx measurement the call comes down to building the
    new measurement from that quantity and the merged extras, or to the
    exception the computation of the quantity raised. *)
Lemma measureAFx_unfold m amx adx adx_spec (h : heap) o q items :
  h !! amx = Some (OMeasurement o) ->
  quantity o = Some q ->
  h !! extras o = Some (ODict items) ->
  let d := fresh (dom h) in
  measureAFx unit_scale m amx adx adx_spec h =
  match AFx_quantity q items adx_spec with
  | Ok qv =>
      Measurement m qv d
        (<[d := ODict (items ∪ {["ADx" := datum adx]})]> h)
  | Err e => Raise e (<[d := ODict {["ADx" := datum adx]}]> h)
  end.
Proof.
  intros Ha Hq He d.
  unfold measureAFx, new_dict.
  unfold bind at 1, alloc at 1. fold d.
  assert (Hd : h !! d = None) by apply fresh_lookup.
  assert (d <> amx) by (intros ->; congruence).
  assert (d <> extras o) by (intros E; rewrite E in Hd; congruence).
  erewrite bind_Return; [|apply dict_setitem_run, lookup_insert_eq].
  rewrite insert_insert_eq.
  change (<["ADx" := datum adx]> ∅) with
    ({["ADx" := datum adx]} : gmap string Datum).
  set (h1 := <[d := _]> h).
  assert (He1 : h1 !! extras o = Some (ODict items)).
  { subst h1. now rewrite lookup_insert_ne. }
  erewrite bind_Return;
    [|apply read_measurement_run; subst h1;
      rewrite lookup_insert_ne by done; eassumption].
  rewrite Hq. unfold bind at 1, ret at 1.
  unfold AFx_quantity.
  destruct (negb (np_isnan (value q))).
  - unfold bind at 1. unfold bind at 1.
    rewrite (dict_getitem_run _ _ _ _ He1).
    destruct (items !! "rmsDistMas") as [rms|]; [|reflexivity].
    unfold bind at 1. rewrite lift_run.
    destruct (quantity_add unit_scale q (threshold adx_spec)) as [limit|e];
      [|reflexivity].
    unfold bind at 1. rewrite lift_run. simpl rbind.
    destruct (quantity_gt unit_scale (datum_quantity rms) limit) as [mask|e];
      [|reflexivity].
    unfold ret at 1. simpl rbind.
    erewrite bind_Return;
      [|eapply dict_update_run; [exact He1 | subst h1; apply lookup_insert_eq]].
    subst h1. now rewrite insert_insert_eq.
  - unfold bind at 1, ret at 1.
    erewrite bind_Return;
      [|eapply dict_update_run; [exact He1 | subst h1; apply lookup_insert_eq]].
    subst h1. now rewrite insert_insert_eq.
Qed.

Lemma measureAFx_run m amx adx adx_spec (h : heap) o q items qv :
  h !! amx = Some (OMeasurement o) ->
  quantity o = Some q ->
  h !! extras o = Some (ODict items) ->
  AFx_quantity q items adx_spec = Ok qv ->
  exists l h', measureAFx unit_scale m amx adx adx_spec h = Return l h' /\
    deref h' l = Some (mkView m (Some qv) (items ∪ {["ADx" := datum adx]})).
Proof.
  intros Ha Hq He Hv.
  rewrite (measureAFx_unfold _ _ _ _ _ _ _ _ Ha Hq He), Hv.
  apply Measurement_run, lookup_insert_eq.
Qed.

(** Whatever it is given, the call changes no object of the store it
    started from; what it returns is new. *)
Lemma measureAFx_keeps m amx adx adx_spec (h0 : heap) :
  keeps h0 (measureAFx unit_scale m amx adx adx_spec) (is_new h0).
Proof.
  unfold measureAFx, new_dict.
  apply keeps_bind with (P := fun d => h0 !! d = None).
  { eapply keeps_weaken; [apply keeps_alloc|]. now intros a h []. }
  intros d Hd.
  apply keeps_bind with (P := fun _ => True).
  { now apply keeps_dict_setitem. }
  intros _ _.
  apply keeps_bind with (P := fun _ => True).
  { apply keeps_reader, read_measurement_heap. }
  intros o _.
  apply keeps_bind with (P := fun _ => True).
  { apply keeps_reader. intros h. now destruct (quantity o). }
  intros q _.
  apply keeps_bind with (P := fun _ => True).
  { destruct (negb (np_isnan (value q))); [|apply keeps_reader; reflexivity].
    apply keeps_bind with (P := fun _ => True).
    { apply keeps_reader, dict_getitem_heap. }
    intros rms _.
    apply keeps_bind with (P := fun _ => True).
    { apply keeps_reader, lift_heap. }
    intros limit _.
    apply keeps_bind with (P := fun _ => True).
    { apply keeps_reader, lift_heap. }
    intros mask _. apply keeps_reader. reflexivity. }
  intros qv _.
  apply keeps_bind with (P := fun _ => True).
  { now apply keeps_dict_update. }
  intros _ _. apply keeps_Measurement.
Qed.

Lemma deref_weaken (h h' : heap) l v :
  h ⊆ h' -> deref h l = Some v -> deref h' l = Some v.
Proof.
  intros Hsub. unfold deref.
  destruct (h !! l) as [[d|o]|] eqn:Hl; try discriminate.
  rewrite (lookup_weaken _ _ _ _ Hl Hsub).
  destruct (h !! extras o) as [[items|]|] eqn:He; try discriminate.
  now rewrite (lookup_weaken _ _ _ _ He Hsub).
Qed.

Lemma deref_inv (h : heap) l v :
  deref h l = Some v ->
  exists o, h !! l = Some (OMeasurement o) /\
            h !! extras o = Some (ODict (view_extras v)) /\
            view_quantity v = quantity o /\ view_metric v = metric o.
Proof.
  unfold deref. destruct (h !! l) as [[d|o]|]; try discriminate.
  destruct (h !! extras o) as [[items|]|] eqn:He; try discriminate.
  intros [= <-]. exists o. simpl. auto.
Qed.

Lemma measureAFx_no_quantity m amx adx adx_spec (h : heap) o :
  h !! amx = Some (OMeasurement o) ->
  quantity o = None ->
  exists h', measureAFx unit_scale m amx adx adx_spec h = Raise TypeError h'.
Proof.
  intros Ha Hq. unfold measureAFx, new_dict.
  unfold bind at 1, alloc at 1.
  assert (Hd : h !! fresh (dom h) = None) by apply fresh_lookup.
  assert (fresh (dom h) <> amx) by (intros E; rewrite E in Hd; congruence).
  erewrite bind_Return; [|apply dict_setitem_run, lookup_insert_eq].
  erewrite bind_Return;
    [|apply read_measurement_run; rewrite !lookup_insert_ne by done;
      eassumption].
  rewrite Hq. eexists. reflexivity.
Qed.

(** What a returned measurement holds, from any well-formed AMx. *)
Lemma measureAFx_returns m amx adx adx_spec (h : heap) va l h' v :
  deref h amx = Some va ->
  measureAFx unit_scale m amx adx adx_spec h = Return l h' ->
  deref h' l = Some v ->
  exists q qv, view_quantity va = Some q /\
    AFx_quantity q (view_extras va) adx_spec = Ok qv /\
    v = mkView m (Some qv) (view_extras va ∪ {["ADx" := datum adx]}).
Proof.
  intros Hva Hrun Hv.
  destruct (deref_inv _ _ _ Hva) as (o & Ha & He & Hq & _).
  destruct (quantity o) as [q|] eqn:Hqo.
  - rewrite (measureAFx_unfold _ _ _ _ _ _ _ _ Ha Hqo He) in Hrun.
    destruct (AFx_quantity q (view_extras va) adx_spec) as [qv|e] eqn:Hqv;
      [|discriminate].
    exists q, qv. split; [exact Hq|]. split; [exact Hqv|].
    destruct (Measurement_run m qv (fresh (dom h))
                (view_extras va ∪ {["ADx" := datum adx]})
                (<[fresh (dom h) :=
                     ODict (view_extras va ∪ {["ADx" := datum adx]})]> h))
      as (l0 & h0 & Hr & Hd); [apply lookup_insert_eq|].
    rewrite Hr in Hrun. injection Hrun as -> ->. congruence.
  - destruct (measureAFx_no_quantity m amx adx adx_spec h o Ha Hqo) as [h1 Hr].
    congruence.
Qed.

(** C2: when the quantity of the AMx measurement is NaN, measureAFx returns
    (it raises nothing) a Measurement whose quantity is NaN percent,
    whatever the AMx extras hold: an rmsDistMas array of any content, or
    none at all. *)
Theorem measureAFx_nan m amx adx adx_spec (h : heap) o q items :
  h !! amx = Some (OMeasurement o) ->
  quantity o = Some q ->
  h !! extras o = Some (ODict items) ->
  np_isnan (value q) = true ->
  exists l h' v,
    measureAFx unit_scale m amx adx adx_spec h = Return l h' /\
    deref h' l = Some v /\
    view_quantity v = Some (mkQuantity F64.nan percent).
Proof.
  intros Ha Hq He Hnan.
  destruct (measureAFx_run m amx adx adx_spec h o q items
              (mkQuantity F64.nan percent) Ha Hq He) as (l & h' & Hr & Hv).
  { unfold AFx_quantity. now rewrite Hnan. }
  exists l, h'. eexists. split; [exact Hr|]. split; [exact Hv|reflexivity].
Qed.

(** The quantity for an AMx that is a number, all three quantities being
    in one unit. *)
Lemma AFx_quantity_fraction q items adx_spec rms :
  np_isnan (value q) = false ->
  items !! "rmsDistMas" = Some rms ->
  unit (threshold adx_spec) = unit q ->
  unit (datum_quantity rms) = unit q ->
  let xs := ravel (value (datum_quantity rms)) in
  let limit := F64.add (value q) (value (threshold adx_spec)) in
  AFx_quantity q items adx_spec =
  Ok (mkQuantity
        (F64.mul f100 (F64.div (F64.of_Z (count_above xs limit))
                               (F64.of_Z (Z.of_nat (length xs)))))
        percent).
Proof.
  intros Hnan Hrms Hu1 Hu2 xs limit.
  unfold AFx_quantity. rewrite Hnan, Hrms. simpl negb. cbv iota.
  unfold quantity_add, quantity_gt, to_value.
  rewrite Hu1, decide_True by reflexivity. simpl rbind.
  rewrite Hu2, decide_True by reflexivity. simpl rbind.
  unfold np_mean. rewrite count_true_map, length_map. reflexivity.
Qed.

(** The quantity for an AMx that is a number, with the conversions that the
    two operators make: [+] takes the threshold to the unit of the AMx
    quantity, [>] takes the sum to the unit of the array. A quantity that
    is in the unit asked for is left as it is; another is multiplied by the
    factor between the two units. *)
Lemma AFx_quantity_converted q items adx_spec rms k1 k2 :
  np_isnan (value q) = false ->
  items !! "rmsDistMas" = Some rms ->
  (unit (threshold adx_spec) = unit q \/
   unit_scale (unit (threshold adx_spec)) (unit q) = Some k1) ->
  (unit q = unit (datum_quantity rms) \/
   unit_scale (unit q) (unit (datum_quantity rms)) = Some k2) ->
  let xs := ravel (value (datum_quantity rms)) in
  let thr := if decide (unit (threshold adx_spec) = unit q)
             then value (threshold adx_spec)
             else F64.mul (value (threshold adx_spec)) k1 in
  let sum := F64.add (value q) thr in
  let limit := if decide (unit q = unit (datum_quantity rms))
               then sum else F64.mul sum k2 in
  AFx_quantity q items adx_spec =
  Ok (mkQuantity
        (F64.mul f100 (F64.div (F64.of_Z (count_above xs limit))
                               (F64.of_Z (Z.of_nat (length xs)))))
        percent).
Proof.
  intros Hnan Hrms Hu1 Hu2 xs thr sum limit.
  unfold AFx_quantity. rewrite Hnan, Hrms. simpl negb. cbv iota.
  assert (H1 : to_value unit_scale (value (threshold adx_spec))
                        (unit (threshold adx_spec)) (unit q) = Ok thr).
  { unfold to_value. subst thr.
    destruct (decide (unit (threshold adx_spec) = unit q)) as [E|N];
      [reflexivity|].
    destruct Hu1 as [E|E]; [contradiction | now rewrite E]. }
  unfold quantity_add. rewrite H1. simpl rbind.
  assert (H2 : to_value unit_scale sum (unit q) (unit (datum_quantity rms))
               = Ok limit).
  { unfold to_value. subst limit.
    destruct (decide (unit q = unit (datum_quantity rms))) as [E|N];
      [reflexivity|].
    destruct Hu2 as [E|E]; [contradiction | now rewrite E]. }
  unfold quantity_gt. simpl value. simpl unit. fold sum. rewrite H2.
  simpl rbind. unfold np_mean. rewrite count_true_map, length_map.
  reflexivity.
Qed.

(** A unit that does not convert, at the sum or at the comparison, ends the
    computation with UnitConversionError. *)
Lemma AFx_quantity_UnitConversionError q items adx_spec rms :
  np_isnan (value q) = false ->
  items !! "rmsDistMas" = Some rms ->
  (unit (threshold adx_spec) <> unit q /\
   unit_scale (unit (threshold adx_spec)) (unit q) = None) \/
  (unit q <> unit (datum_quantity rms) /\
   unit_scale (unit q) (unit (datum_quantity rms)) = None) ->
  AFx_quantity q items adx_spec = Err UnitConversionError.
Proof.
  intros Hnan Hrms H.
  unfold AFx_quantity. rewrite Hnan, Hrms. simpl negb. cbv iota.
  unfold quantity_add, quantity_gt, to_value.
  destruct H as [[N E]|[N E]].
  - rewrite decide_False by exact N. now rewrite E.
  - destruct (decide (unit (threshold adx_spec) = unit q)); simpl.
    + rewrite decide_False by exact N. now rewrite E.
    + destruct (unit_scale (unit (threshold adx_spec)) (unit q)); simpl;
        [|reflexivity].
      rewrite decide_False by exact N. now rewrite E.
Qed.

(** An exception of the computation of the quantity is the exception of
    the call. *)
Lemma measureAFx_raises m amx adx adx_spec (h : heap) o q items e :
  h !! amx = Some (OMeasurement o) ->
  quantity o = Some q ->
  h !! extras o = Some (ODict items) ->
  AFx_quantity q items adx_spec = Err e ->
  result_of (measureAFx unit_scale m amx adx adx_spec h) = Err e.
Proof.
  intros Ha Hq He Hv.
  rewrite (measureAFx_unfold _ _ _ _ _ _ _ _ Ha Hq He), Hv. reflexivity.
Qed.

End AFx.

(** *** Worked inputs *)

Definition no_scale : Unit -> Unit -> option float := fun _ _ => None.

Definition marcsec : Unit := "marcsec".

Definition arcsec : Unit := "arcsec".

Definition mag : Unit := "mag".

(** Conversions between the two units of angle of the worked inputs, an
    arcsecond being 1000 milliarcseconds; no other pair of units converts. *)
Definition angle_scale (from to : Unit) : option float :=
  if String.eqb from "arcsec" && String.eqb to "marcsec"
  then Some (F64.of_Z 1000)
  else if String.eqb from "marcsec" && String.eqb to "arcsec"
       then Some (F64.of_decimal false 1 (-3))
       else None.

Definition ten_percent : Specification :=
  mkSpecification (mkQuantity (F64.of_Z 10) percent).

Definition AF1 : Metric := mkMetric "AF1" "<=" (fun _ _ => Ok ten_percent).

Definition AM1 : Metric := mkMetric "AM1" "<=" (fun _ _ => Ok ten_percent).

(** A store with one AMx measurement at address 1, its extras at 2. *)
Definition amx_store (q : option (Quantity float))
           (items : gmap string Datum) : heap :=
  <[1%positive := OMeasurement (mkMeasurementObj AM1 q 2%positive)]>
    (<[2%positive := ODict items]> ∅).

Definition datum_of_list (xs : list Z) : Datum :=
  mkDatum (mkQuantity (Arr1 (map F64.of_Z xs)) marcsec) "RMS of distance".

Definition AD1 (x : Z) : ADx :=
  mkADx (mkDatum (mkQuantity (Scalar (F64.of_Z x)) marcsec) "AD1").

Definition AD1_spec (x : Z) : ThresholdSpecification :=
  mkThresholdSpecification (mkQuantity (F64.of_Z x) marcsec).

(** A threshold of [x] in the unit [u]. *)
Definition AD1_spec_in (u : Unit) (x : Z) : ThresholdSpecification :=
  mkThresholdSpecification (mkQuantity (F64.of_Z x) u).

(** Distances in arcseconds. *)
Definition datum_in_arcsec (xs : list Z) : Datum :=
  mkDatum (mkQuantity (Arr1 (map F64.of_Z xs)) arcsec) "RMS of distance".

Lemma amx_store_amx q items :
  amx_store q items !! 1%positive =
  Some (OMeasurement (mkMeasurementObj AM1 q 2%positive)).
Proof. apply lookup_insert_eq. Qed.

Lemma amx_store_extras q items :
  amx_store q items !! 2%positive = Some (ODict items).
Proof.
  unfold amx_store. rewrite lookup_insert_ne by discriminate.
  apply lookup_insert_eq.
Qed.

(** C1, as the code has it: for an AMx quantity that is not NaN, a
    threshold whose unit is the unit of the AMx quantity or converts to it,
    and an rmsDistMas array of the AMx extras to whose unit the unit of the
    AMx quantity is equal or converts, measureAFx returns a Measurement whose
    quantity is, in percent, 100 times the number of rmsDistMas entries
    strictly greater than AMx quantity + ADx threshold divided by the number
    of entries (float64 arithmetic); the threshold is taken to the unit of
    the AMx quantity for the sum and the sum to the unit of the array for
    the comparison, each by the factor between the units. When one of the
    two conversions does not exist the call raises UnitConversionError. For
    AMx = 5.0, threshold 2.0 and rmsDistMas = [3,...,10], all in one unit,
    the result is 37.5 percent. *)
Theorem measureAFx_fraction :
  (forall unit_scale m amx adx adx_spec (h : heap) o q items rms k1 k2,
      h !! amx = Some (OMeasurement o) ->
      quantity o = Some q ->
      h !! extras o = Some (ODict items) ->
      np_isnan (value q) = false ->
      items !! "rmsDistMas" = Some rms ->
      (unit (threshold adx_spec) = unit q \/
       unit_scale (unit (threshold adx_spec)) (unit q) = Some k1) ->
      (unit q = unit (datum_quantity rms) \/
       unit_scale (unit q) (unit (datum_quantity rms)) = Some k2) ->
      let xs := ravel (value (datum_quantity rms)) in
      let thr := if decide (unit (threshold adx_spec) = unit q)
                 then value (threshold adx_spec)
                 else F64.mul (value (threshold adx_spec)) k1 in
      let sum := F64.add (value q) thr in
      let limit := if decide (unit q = unit (datum_quantity rms))
                   then sum else F64.mul sum k2 in
      exists l h' v,
        measureAFx unit_scale m amx adx adx_spec h = Return l h' /\
        deref h' l = Some v /\
        view_quantity v =
        Some (mkQuantity
                (F64.mul f100
                   (F64.div (F64.of_Z (count_above xs limit))
                            (F64.of_Z (Z.of_nat (length xs)))))
                percent)) /\
  (forall unit_scale m amx adx adx_spec (h : heap) o q items rms,
      h !! amx = Some (OMeasurement o) ->
      quantity o = Some q ->
      h !! extras o = Some (ODict items) ->
      np_isnan (value q) = false ->
      items !! "rmsDistMas" = Some rms ->
      (unit (threshold adx_spec) <> unit q /\
       unit_scale (unit (threshold adx_spec)) (unit q) = None) \/
      (unit q <> unit (datum_quantity rms) /\
       unit_scale (unit q) (unit (datum_quantity rms)) = None) ->
      result_of (measureAFx unit_scale m amx adx adx_spec h)
      = Err UnitConversionError) /\
  (forall unit_scale, exists l h' v,
      measureAFx unit_scale AF1 1%positive (AD1 2) (AD1_spec 2)
        (amx_store (Some (mkQuantity (F64.of_Z 5) marcsec))
           {["rmsDistMas" := datum_of_list [3; 4; 5; 6; 7; 8; 9; 10]]})
      = Return l h' /\
      deref h' l = Some v /\
      view_quantity v =
      Some (mkQuantity (F64.of_decimal false 375 (-1)) percent)).
Proof.
  split; [|split].
  - intros us m amx adx adx_spec h o q items rms k1 k2
           Ha Hq He Hnan Hrms Hu1 Hu2 xs thr sum limit.
    destruct (measureAFx_run us m amx adx adx_spec h o q items _ Ha Hq He
                (AFx_quantity_converted us q items adx_spec rms k1 k2
                   Hnan Hrms Hu1 Hu2))
      as (l & h' & Hr & Hv).
    exists l, h'. eexists. split; [exact Hr|]. split; [exact Hv|reflexivity].
  - intros us m amx adx adx_spec h o q items rms Ha Hq He Hnan Hrms Hu.
    apply (measureAFx_raises us m amx adx adx_spec h o q items _ Ha Hq He).
    now apply AFx_quantity_UnitConversionError with (rms := rms).
  - intros us.
    destruct (measureAFx_run us AF1 1%positive (AD1 2) (AD1_spec 2)
                (amx_store (Some (mkQuantity (F64.of_Z 5) marcsec))
                   {["rmsDistMas" := datum_of_list [3; 4; 5; 6; 7; 8; 9; 10]]})
                _ _ _ _ (amx_store_amx _ _) eq_refl (amx_store_extras _ _)
                (AFx_quantity_fraction us
                   (mkQuantity (F64.of_Z 5) marcsec)
                   {["rmsDistMas" := datum_of_list [3; 4; 5; 6; 7; 8; 9; 10]]}
                   (AD1_spec 2)
                   (datum_of_list [3; 4; 5; 6; 7; 8; 9; 10])
                   eq_refl (lookup_singleton_eq _ _) eq_refl eq_refl))
      as (l & h' & Hr & Hv).
    exists l, h'. eexists. split; [exact Hr|]. split; [exact Hv|].
    vm_compute. reflexivity.
Qed.

(** A threshold of 2 arcsec against an AMx of 5 marcsec and distances in
    arcseconds: the limit is (5 + 2 * 1000) * 0.001 arcsec, above it are two
    of the four distances. *)
Lemma measureAFx_fraction_witness :
  exists l h' v,
    measureAFx angle_scale AF1 1%positive (AD1 2) (AD1_spec_in arcsec 2)
      (amx_store (Some (mkQuantity (F64.of_Z 5) marcsec))
         {["rmsDistMas" := datum_in_arcsec [1; 2; 3; 4]]})
    = Return l h' /\
    deref h' l = Some v /\
    view_quantity v = Some (mkQuantity (F64.of_Z 50) percent).
Proof.
  destruct (proj1 measureAFx_fraction angle_scale AF1 1%positive (AD1 2)
              (AD1_spec_in arcsec 2)
              (amx_store (Some (mkQuantity (F64.of_Z 5) marcsec))
                 {["rmsDistMas" := datum_in_arcsec [1; 2; 3; 4]]})
              _ _ _ (datum_in_arcsec [1; 2; 3; 4])
              (F64.of_Z 1000) (F64.of_decimal false 1 (-3))
              (amx_store_amx _ _) eq_refl (amx_store_extras _ _)
              eq_refl (lookup_singleton_eq _ _)
              (or_intror eq_refl) (or_intror eq_refl))
    as (l & h' & v & Hr & Hv & Hq).
  exists l, h', v. split; [exact Hr|]. split; [exact Hv|].
  rewrite Hq. vm_compute. reflexivity.
Defined.

(** C1 as stated fails: it is not for every threshold. A threshold in
    magnitudes does not convert to the milliarcseconds of the AMx quantity;
    the sum raises UnitConversionError and no Measurement is returned,
    though the AMx quantity is a number and the array is there. *)
Lemma measureAFx_fraction_counterexample :
  np_isnan (F64.of_Z 5) = false /\
  result_of
    (measureAFx angle_scale AF1 1%positive (AD1 2) (AD1_spec_in mag 2)
       (amx_store (Some (mkQuantity (F64.of_Z 5) marcsec))
          {["rmsDistMas" := datum_of_list [3; 4; 5; 6; 7; 8; 9; 10]]}))
  = Err UnitConversionError.
Proof.
  split; [reflexivity|].
  apply (measureAFx_raises angle_scale AF1 1%positive (AD1 2)
           (AD1_spec_in mag 2) _ _ _ _ _
           (amx_store_amx _ _) eq_refl (amx_store_extras _ _)).
  apply AFx_quantity_UnitConversionError
    with (rms := datum_of_list [3; 4; 5; 6; 7; 8; 9; 10]).
  - reflexivity.
  - apply lookup_singleton_eq.
  - left. split; [discriminate | reflexivity].
Qed.

Lemma measureAFx_nan_witness :
  exists l h' v,
    measureAFx no_scale AF1 1%positive (AD1 2) (AD1_spec 2)
      (amx_store (Some (mkQuantity F64.nan marcsec))
         {["rmsDistMas" := datum_of_list [3; 4; 5]]})
    = Return l h' /\
    deref h' l = Some v /\
    view_quantity v = Some (mkQuantity F64.nan percent).
Proof.
  exact (measureAFx_nan no_scale AF1 1%positive (AD1 2) (AD1_spec 2)
           (amx_store (Some (mkQuantity F64.nan marcsec))
              {["rmsDistMas" := datum_of_list [3; 4; 5]]})
           _ _ _ (amx_store_amx _ _) eq_refl (amx_store_extras _ _) eq_refl).
Defined.

(** C5, as the code has it: the extras of the returned Measurement hold
    every key-value pair of the AMx extras and nothing else but the ADx
    datum; the ADx datum is under the key 'ADx' when the AMx extras have no
    such key, and the AMx item under that key is kept when they have one. *)
Theorem measureAFx_extras unit_scale m amx adx adx_spec (h : heap)
        va l h' v :
  deref h amx = Some va ->
  measureAFx unit_scale m amx adx adx_spec h = Return l h' ->
  deref h' l = Some v ->
  (forall key d, view_extras va !! key = Some d ->
                 view_extras v !! key = Some d) /\
  (view_extras va !! "ADx" = None ->
   view_extras v !! "ADx" = Some (datum adx)) /\
  (forall key d, view_extras v !! key = Some d ->
                 view_extras va !! key = Some d \/
                 (key = "ADx" /\ d = datum adx)).
Proof.
  intros Hva Hrun Hv.
  destruct (measureAFx_returns unit_scale m amx adx adx_spec h va l h' v
              Hva Hrun Hv) as (q & qv & _ & _ & ->).
  simpl. split; [|split].
  - intros key d Hk. now apply lookup_union_Some_l.
  - intros Hn. rewrite lookup_union_r by exact Hn.
    apply lookup_singleton_eq.
  - intros key d Hk. apply lookup_union_Some_raw in Hk.
    destruct Hk as [Hk|[_ Hk]]; [now left|right].
    apply lookup_singleton_Some in Hk. destruct Hk. now split.
Qed.

Definition AD1_stale : Datum :=
  mkDatum (mkQuantity (Scalar (F64.of_Z 40)) marcsec) "AD1 of an earlier run".

Lemma measureAFx_extras_witness :
  exists l h' v,
    measureAFx no_scale AF1 1%positive (AD1 2) (AD1_spec 2)
      (amx_store (Some (mkQuantity F64.nan marcsec))
         {["D" := datum_of_list [5]]}) = Return l h' /\
    deref h' l = Some v /\
    view_extras v !! "D" = Some (datum_of_list [5]) /\
    view_extras v !! "ADx" = Some (datum (AD1 2)).
Proof.
  destruct (measureAFx_run no_scale AF1 1%positive (AD1 2) (AD1_spec 2)
              (amx_store (Some (mkQuantity F64.nan marcsec))
                 {["D" := datum_of_list [5]]})
              _ _ _ _ (amx_store_amx _ _) eq_refl (amx_store_extras _ _)
              eq_refl) as (l & h' & Hr & Hv).
  set (v := mkView AF1 (Some (mkQuantity F64.nan percent))
              ({["D" := datum_of_list [5]]} ∪ {["ADx" := datum (AD1 2)]}))
    in Hv.
  exists l, h', v. split; [exact Hr|]. split; [exact Hv|].
  destruct (measureAFx_extras no_scale AF1 1%positive (AD1 2) (AD1_spec 2)
              (amx_store (Some (mkQuantity F64.nan marcsec))
                 {["D" := datum_of_list [5]]})
              (mkView AM1 (Some (mkQuantity F64.nan marcsec))
                 {["D" := datum_of_list [5]]}) l h' v
              eq_refl Hr Hv) as (H1 & H2 & _).
  split; [apply H1; reflexivity | apply H2; reflexivity].
Defined.

(** C5 as stated fails: AMx extras that already have an 'ADx' item keep it,
    and the ADx datum passed to the call is not recorded. *)
Lemma measureAFx_extras_counterexample :
  exists l h' v,
    measureAFx no_scale AF1 1%positive (AD1 2) (AD1_spec 2)
      (amx_store (Some (mkQuantity F64.nan marcsec))
         {["ADx" := AD1_stale]}) = Return l h' /\
    deref h' l = Some v /\
    view_extras v !! "ADx" = Some AD1_stale /\
    view_extras v !! "ADx" <> Some (datum (AD1 2)).
Proof.
  destruct (measureAFx_run no_scale AF1 1%positive (AD1 2) (AD1_spec 2)
              (amx_store (Some (mkQuantity F64.nan marcsec))
                 {["ADx" := AD1_stale]})
              _ _ _ _ (amx_store_amx _ _) eq_refl (amx_store_extras _ _)
              eq_refl) as (l & h' & Hr & Hv).
  exists l, h'. eexists. split; [exact Hr|]. split; [exact Hv|].
  simpl. split.
  - apply lookup_union_Some_l, lookup_singleton_eq.
  - erewrite lookup_union_Some_l by apply lookup_singleton_eq.
    intros E. injection E as E. discriminate E.
Qed.

(** C10: measureAFx changes no object of the store it is called in, whether
    it returns or raises: the AMx measurement read through its reference has
    the quantity and the extras items it had; the Measurement it returns and
    the extras mapping of that Measurement are new objects. *)
Theorem measureAFx_frame unit_scale m amx adx adx_spec (h : heap) :
  let out := measureAFx unit_scale m amx adx adx_spec h in
  h ⊆ final_heap out /\
  (forall va, deref h amx = Some va -> deref (final_heap out) amx = Some va) /\
  (forall l h', out = Return l h' -> is_new h l h').
Proof.
  intros out.
  pose proof (measureAFx_keeps unit_scale m amx adx adx_spec h h
                (reflexivity h)) as K.
  fold out in K.
  assert (Hsub : h ⊆ final_heap out) by (destruct out; simpl; tauto).
  split; [exact Hsub|]. split.
  - intros va. now apply deref_weaken.
  - intros l h' E. rewrite E in K. tauto.
Qed.

(** ** measurePA2 *)

(** *** Order of floats, and the sort *)

Lemma SFcompare_antisym x y c :
  SFcompare x y = Some c -> SFcompare y x = Some (CompOpp c).
Proof.
  destruct x as [sx|sx| |sx mx ex], y as [sy|sy| |sy my ey]; simpl;
    try discriminate;
    try (destruct sx; intros [= <-]; reflexivity);
    try (destruct sy; intros [= <-]; reflexivity);
    try (destruct sx, sy; intros [= <-]; reflexivity).
  intros [= <-]. f_equal.
  rewrite (Z.compare_antisym ex ey).
  destruct sx, sy; try reflexivity;
    destruct (ex ?= ey) eqn:E; simpl; try reflexivity;
    now rewrite (Pos.compare_cont_antisym mx my Eq).
Qed.

Lemma SFcompare_defined x y :
  F64.is_nan x = false -> F64.is_nan y = false ->
  exists c, SFcompare x y = Some c.
Proof.
  destruct x, y; simpl; try discriminate; intros _ _; eexists; reflexivity.
Qed.

(** Of two numbers, one is below the other. *)
Lemma leb_total x y :
  F64.is_nan x = false -> F64.is_nan y = false ->
  F64.leb x y = false -> F64.leb y x = true.
Proof.
  intros Hx Hy. unfold F64.leb, SFleb.
  destruct (SFcompare_defined x y Hx Hy) as [c Hc].
  rewrite Hc, (SFcompare_antisym _ _ _ Hc).
  now destruct c.
Qed.

Definition fle (x y : float) : Prop := F64.leb x y = true.

Definition is_number (x : float) : Prop := F64.is_nan x = false.

Lemma insert_sorted_perm x l : Permutation (insert_sorted x l) (x :: l).
Proof.
  induction l as [|y l IH]; simpl; [reflexivity|].
  destruct (F64.leb x y); [reflexivity|].
  rewrite IH. apply perm_swap.
Qed.

Lemma np_sort_perm l : Permutation (np_sort l) l.
Proof.
  induction l as [|x l IH]; simpl; [reflexivity|].
  rewrite insert_sorted_perm. now constructor.
Qed.

Lemma insert_sorted_HdRel a x l :
  fle a x -> HdRel fle a l -> HdRel fle a (insert_sorted x l).
Proof.
  intros Hax Hl. destruct l as [|y l]; simpl; [now constructor|].
  destruct (F64.leb x y); constructor; [exact Hax|].
  now inversion Hl.
Qed.

Lemma insert_sorted_Sorted x l :
  is_number x -> Forall is_number l ->
  Sorted fle l -> Sorted fle (insert_sorted x l).
Proof.
  intros Hx Hl Hs. induction Hs as [|y l Hs IH Hd]; simpl.
  - repeat constructor.
  - inversion Hl as [|? ? Hy Hl']; subst.
    destruct (F64.leb x y) eqn:E.
    + constructor; [now constructor|]. now constructor.
    + constructor; [now apply IH|].
      apply insert_sorted_HdRel; [|exact Hd].
      now apply leb_total.
Qed.

(** Without NaN the sorted array is a rearrangement of the data in
    ascending order: its entries are the order statistics. *)
Lemma np_sort_Sorted l :
  Forall is_number l -> Sorted fle (np_sort l).
Proof.
  induction 1 as [|x l Hx Hl IH]; simpl; [constructor|].
  apply insert_sorted_Sorted; [exact Hx| |exact IH].
  eapply Permutation_Forall; [symmetry; apply np_sort_perm | exact Hl].
Qed.

(* ===================================================================== *)
(** * Further properties of the measurements *)
(* ===================================================================== *)

(** ** measureAFx: errors and edge cases *)

(** An AMx quantity that is a number needs the rmsDistMas array: without it
    the lookup in the AMx extras raises. *)
Theorem measureAFx_missing_rmsDistMas unit_scale m amx adx adx_spec
        (h : heap) va q :
  deref h amx = Some va ->
  view_quantity va = Some q ->
  np_isnan (value q) = false ->
  view_extras va !! "rmsDistMas" = None ->
  result_of (measureAFx unit_scale m amx adx adx_spec h)
  = Err (KeyError "rmsDistMas").
Proof.
  intros Hva Hq Hnum Hmiss.
  destruct (deref_inv h amx va Hva) as (o & Ha & He & Hqo & _).
  rewrite Hq in Hqo. symmetry in Hqo.
  rewrite (measureAFx_unfold unit_scale m amx adx adx_spec h o q
             (view_extras va) Ha Hqo He).
  unfold AFx_quantity. now rewrite Hnum, Hmiss.
Qed.

Lemma measureAFx_missing_rmsDistMas_witness :
  result_of (measureAFx no_scale AF1 1%positive (AD1 2) (AD1_spec 2)
               (amx_store (Some (mkQuantity (F64.of_Z 5) marcsec)) ∅))
  = Err (KeyError "rmsDistMas").
Proof.
  exact (measureAFx_missing_rmsDistMas no_scale AF1 1%positive (AD1 2)
           (AD1_spec 2)
           (amx_store (Some (mkQuantity (F64.of_Z 5) marcsec)) ∅)
           (mkView AM1 (Some (mkQuantity (F64.of_Z 5) marcsec)) ∅)
           (mkQuantity (F64.of_Z 5) marcsec)
           eq_refl eq_refl eq_refl eq_refl).
Defined.

(** An AMx measurement without a quantity is refused by [np.isnan]. *)
Theorem measureAFx_no_quantity_TypeError unit_scale m amx adx adx_spec
        (h : heap) va :
  deref h amx = Some va ->
  view_quantity va = None ->
  result_of (measureAFx unit_scale m amx adx adx_spec h) = Err TypeError.
Proof.
  intros Hva Hq.
  destruct (deref_inv h amx va Hva) as (o & Ha & _ & Hqo & _).
  rewrite Hq in Hqo. symmetry in Hqo.
  destruct (measureAFx_no_quantity unit_scale m amx adx adx_spec h o Ha Hqo)
    as [h' Hr].
  now rewrite Hr.
Qed.

Lemma measureAFx_no_quantity_TypeError_witness :
  result_of (measureAFx no_scale AF1 1%positive (AD1 2) (AD1_spec 2)
               (amx_store None {["rmsDistMas" := datum_of_list [3; 4]]}))
  = Err TypeError.
Proof.
  exact (measureAFx_no_quantity_TypeError no_scale AF1 1%positive (AD1 2)
           (AD1_spec 2)
           (amx_store None {["rmsDistMas" := datum_of_list [3; 4]]})
           (mkView AM1 None {["rmsDistMas" := datum_of_list [3; 4]]})
           eq_refl eq_refl).
Defined.

(** With an rmsDistMas array that has no entry the mean is 0/0: the call
    returns, and the quantity is NaN percent. *)
Theorem measureAFx_empty_array unit_scale m amx adx adx_spec
        (h : heap) o q items rms :
  h !! amx = Some (OMeasurement o) ->
  quantity o = Some q ->
  h !! extras o = Some (ODict items) ->
  np_isnan (value q) = false ->
  items !! "rmsDistMas" = Some rms ->
  unit (threshold adx_spec) = unit q ->
  unit (datum_quantity rms) = unit q ->
  ravel (value (datum_quantity rms)) = [] ->
  exists l h' v,
    measureAFx unit_scale m amx adx adx_spec h = Return l h' /\
    deref h' l = Some v /\
    view_quantity v = Some (mkQuantity F64.nan percent).
Proof.
  intros Ha Hq He Hnum Hrms Hu1 Hu2 Hempty.
  pose proof (AFx_quantity_fraction unit_scale q items adx_spec rms
                Hnum Hrms Hu1 Hu2) as Hfrac.
  cbv zeta in Hfrac. rewrite Hempty in Hfrac.
  destruct (measureAFx_run unit_scale m amx adx adx_spec h o q items _
              Ha Hq He Hfrac) as (l & h' & Hr & Hv).
  exists l, h'. eexists. split; [exact Hr|]. split; [exact Hv|reflexivity].
Qed.

Definition no_stars : Datum :=
  mkDatum (mkQuantity (Arr1 []) marcsec) "RMS of distance".

Lemma measureAFx_empty_array_witness :
  exists l h' v,
    measureAFx no_scale AF1 1%positive (AD1 2) (AD1_spec 2)
      (amx_store (Some (mkQuantity (F64.of_Z 5) marcsec))
         {["rmsDistMas" := no_stars]}) = Return l h' /\
    deref h' l = Some v /\
    view_quantity v = Some (mkQuantity F64.nan percent).
Proof.
  exact (measureAFx_empty_array no_scale AF1 1%positive (AD1 2) (AD1_spec 2)
           (amx_store (Some (mkQuantity (F64.of_Z 5) marcsec))
              {["rmsDistMas" := no_stars]})
           _ _ _ no_stars
           (amx_store_amx _ _) eq_refl (amx_store_extras _ _)
           eq_refl (lookup_singleton_eq _ _) eq_refl eq_refl eq_refl).
Defined.

Lemma AFx_quantity_percent unit_scale q items adx_spec qv :
  AFx_quantity unit_scale q items adx_spec = Ok qv -> unit qv = percent.
Proof.
  unfold AFx_quantity.
  destruct (negb (np_isnan (value q))); [|now intros [= <-]].
  destruct (items !! "rmsDistMas") as [rms|]; [|discriminate].
  destruct (quantity_add unit_scale q (threshold adx_spec)) as [limit|];
    [|discriminate].
  simpl.
  destruct (quantity_gt unit_scale (datum_quantity rms) limit) as [mask|];
    [|discriminate].
  now intros [= <-].
Qed.

(** Whatever the units of its inputs, a Measurement that measureAFx returns
    is for the metric it was given and has a quantity in percent. *)
Theorem measureAFx_percent unit_scale m amx adx adx_spec (h : heap)
        va l h' v :
  deref h amx = Some va ->
  measureAFx unit_scale m amx adx adx_spec h = Return l h' ->
  deref h' l = Some v ->
  view_metric v = m /\
  exists x, view_quantity v = Some (mkQuantity x percent).
Proof.
  intros Hva Hrun Hv.
  destruct (measureAFx_returns unit_scale m amx adx adx_spec h va l h' v
              Hva Hrun Hv) as (q & qv & _ & Hqv & ->).
  split; [reflexivity|]. simpl.
  apply AFx_quantity_percent in Hqv. destruct qv as [x u]. simpl in Hqv.
  subst u. now exists x.
Qed.

Lemma measureAFx_percent_witness :
  exists l h' v,
    measureAFx no_scale AF1 1%positive (AD1 1) (AD1_spec 1)
      (amx_store (Some (mkQuantity (F64.of_Z 1) marcsec))
         {["rmsDistMas" := datum_of_list [1; 2; 3; 4]]}) = Return l h' /\
    deref h' l = Some v /\
    view_metric v = AF1 /\
    exists x, view_quantity v = Some (mkQuantity x percent).
Proof.
  destruct (measureAFx_run no_scale AF1 1%positive (AD1 1) (AD1_spec 1)
              (amx_store (Some (mkQuantity (F64.of_Z 1) marcsec))
                 {["rmsDistMas" := datum_of_list [1; 2; 3; 4]]})
              _ _ _ _ (amx_store_amx _ _) eq_refl (amx_store_extras _ _)
              (AFx_quantity_fraction no_scale
                 (mkQuantity (F64.of_Z 1) marcsec)
                 {["rmsDistMas" := datum_of_list [1; 2; 3; 4]]} (AD1_spec 1)
                 (datum_of_list [1; 2; 3; 4]) eq_refl
                 (lookup_singleton_eq _ _) eq_refl eq_refl))
    as (l & h' & Hr & Hv).
  exists l, h'. eexists. split; [exact Hr|]. split; [exact Hv|].
  exact (measureAFx_percent no_scale AF1 1%positive (AD1 1) (AD1_spec 1)
           (amx_store (Some (mkQuantity (F64.of_Z 1) marcsec))
              {["rmsDistMas" := datum_of_list [1; 2; 3; 4]]})
           (mkView AM1 (Some (mkQuantity (F64.of_Z 1) marcsec))
              {["rmsDistMas" := datum_of_list [1; 2; 3; 4]]})
           l h' _ eq_refl Hr Hv).
Defined.

(** ** measurePA2: what it returns, raises and leaves in place *)

(** The datum recorded under 'pf1_thresh'. *)
Definition pf1_thresh_datum (pf1_thresh : Quantity float) : Datum :=
  Datum_of pf1_thresh "Threshold from the PF1 specification".

(** The value part of [measurePA2]: from the items of the PA1 extras and the
    threshold to the quantity, or to the exception of the step that fails. *)
Definition PA2_value (unit_scale : Unit -> Unit -> option float)
           (items : gmap string Datum) (pf1_thresh : Quantity float)
  : Result (Quantity float) :=
  match items !! "magDiff" with
  | Some magDiff =>
      match row0 (value (datum_quantity magDiff)) with
      | Ok magDiffs =>
          match quantity_sub unit_scale (mkQuantity f100 percent)
                             pf1_thresh with
          | Ok pf1Percentile =>
              match np_percentile (np_abs magDiffs)
                                  (value pf1Percentile) with
              | Ok p => Ok (mkQuantity p (unit (datum_quantity magDiff)))
              | Err e => Err e
              end
          | Err e => Err e
          end
      | Err e => Err e
      end
  | None => Err (KeyError "magDiff")
  end.

(** The store after the first two statements of [measurePA2]. *)
Definition with_datums (h : heap) (pf1_thresh : Quantity float) : heap :=
  <[fresh (dom h) := ODict {["pf1_thresh" := pf1_thresh_datum pf1_thresh]}]> h.

Lemma measurePA2_steps unit_scale m pa1 pf1_thresh (h : heap) va :
  deref h pa1 = Some va ->
  measurePA2 unit_scale m pa1 pf1_thresh h =
  match PA2_value unit_scale (view_extras va) pf1_thresh with
  | Ok qv => Measurement m qv (fresh (dom h)) (with_datums h pf1_thresh)
  | Err e => Raise e (with_datums h pf1_thresh)
  end.
Proof.
  intros Hva.
  destruct (deref_inv h pa1 va Hva) as (o & Hpa1 & Hextras & _ & _).
  set (items := view_extras va) in *.
  assert (Hnew : h !! fresh (dom h) = None) by apply fresh_lookup.
  assert (Hne1 : fresh (dom h) <> pa1) by congruence.
  assert (Hne2 : fresh (dom h) <> extras o) by congruence.
  assert (Hpa1' : with_datums h pf1_thresh !! pa1 = Some (OMeasurement o)).
  { unfold with_datums. now rewrite lookup_insert_ne. }
  assert (Hextras' : with_datums h pf1_thresh !! extras o = Some (ODict items)).
  { unfold with_datums. now rewrite lookup_insert_ne. }
  unfold measurePA2.
  rewrite (bind_Return new_dict _ h (fresh (dom h))
             (<[fresh (dom h) := ODict ∅]> h) eq_refl).
  rewrite (bind_Return _ _ _ tt (with_datums h pf1_thresh)).
  2:{ rewrite (dict_setitem_run _ _ _ ∅) by apply lookup_insert_eq.
      unfold with_datums. now rewrite insert_insert_eq. }
  rewrite (bind_Return _ _ _ _ _ (read_measurement_run _ _ _ Hpa1')).
  unfold PA2_value.
  destruct (items !! "magDiff") as [magDiff|] eqn:Hm.
  - rewrite (bind_Return _ _ _ magDiff (with_datums h pf1_thresh)).
    2:{ now rewrite (dict_getitem_run _ _ _ _ Hextras'), Hm. }
    destruct (row0 (value (datum_quantity magDiff))) as [magDiffs|e];
      [|reflexivity].
    rewrite (bind_Return _ _ _ magDiffs (with_datums h pf1_thresh) eq_refl).
    destruct (quantity_sub unit_scale (mkQuantity f100 percent) pf1_thresh)
      as [pf1Percentile|e]; [|reflexivity].
    rewrite (bind_Return _ _ _ pf1Percentile (with_datums h pf1_thresh)
               eq_refl).
    destruct (np_percentile (np_abs magDiffs) (value pf1Percentile))
      as [p|e]; reflexivity.
  - apply bind_Raise. now rewrite (dict_getitem_run _ _ _ _ Hextras'), Hm.
Qed.

Lemma with_datums_datums (h : heap) pf1_thresh :
  with_datums h pf1_thresh !! fresh (dom h)
  = Some (ODict {["pf1_thresh" := pf1_thresh_datum pf1_thresh]}).
Proof. apply lookup_insert_eq. Qed.

(** The result of the call, as its caller reads it. *)
Lemma measurePA2_result_of unit_scale m pa1 pf1_thresh (h : heap) va :
  deref h pa1 = Some va ->
  result_of (measurePA2 unit_scale m pa1 pf1_thresh h) =
  match PA2_value unit_scale (view_extras va) pf1_thresh with
  | Ok qv =>
      Ok (Some (mkView m (Some qv)
                       {["pf1_thresh" := pf1_thresh_datum pf1_thresh]}))
  | Err e => Err e
  end.
Proof.
  intros Hva. rewrite (measurePA2_steps _ _ _ _ _ _ Hva).
  destruct (PA2_value unit_scale (view_extras va) pf1_thresh) as [qv|e];
    [|reflexivity].
  destruct (Measurement_run m qv _ _ _ (with_datums_datums h pf1_thresh))
    as (l & h' & -> & Hv).
  simpl. now rewrite Hv.
Qed.

(** The extras of a Measurement that measurePA2 returns hold the PF1
    threshold datum under 'pf1_thresh' and nothing else: the extras of the
    PA1 measurement are not carried over. The Measurement is for the metric
    given. *)
Theorem measurePA2_extras unit_scale m pa1 pf1_thresh (h : heap)
        va l h' v :
  deref h pa1 = Some va ->
  measurePA2 unit_scale m pa1 pf1_thresh h = Return l h' ->
  deref h' l = Some v ->
  view_metric v = m /\
  view_extras v = {["pf1_thresh" := pf1_thresh_datum pf1_thresh]} /\
  datum_quantity (pf1_thresh_datum pf1_thresh)
  = mkQuantity (Scalar (value pf1_thresh)) (unit pf1_thresh).
Proof.
  intros Hva Hrun Hv.
  pose proof (measurePA2_result_of unit_scale m pa1 pf1_thresh h va Hva)
    as Hres.
  rewrite Hrun in Hres. simpl in Hres. rewrite Hv in Hres.
  destruct (PA2_value unit_scale (view_extras va) pf1_thresh) as [qv|e];
    [|discriminate].
  injection Hres as ->. simpl. auto.
Qed.

Lemma measurePA2_Return unit_scale m pa1 pf1_thresh (h : heap) va qv :
  deref h pa1 = Some va ->
  PA2_value unit_scale (view_extras va) pf1_thresh = Ok qv ->
  exists l h',
    measurePA2 unit_scale m pa1 pf1_thresh h = Return l h' /\
    deref h' l
    = Some (mkView m (Some qv)
                   {["pf1_thresh" := pf1_thresh_datum pf1_thresh]}).
Proof.
  intros Hva Hqv. rewrite (measurePA2_steps _ _ _ _ _ _ Hva), Hqv.
  apply Measurement_run, with_datums_datums.
Qed.

(** *** A small PA1 measurement *)

Definition PA1_metric : Metric :=
  mkMetric "PA1" "<=" (fun _ _ => Ok ten_percent).

Definition PA2_metric : Metric :=
  mkMetric "PA2" "<=" (fun _ _ => Ok ten_percent).

(** Two trials of three stars; the absolute values of the first trial are
    1, 2 and 3. *)
Definition two_trials : Datum :=
  mkDatum (mkQuantity (Arr2 [map F64.of_Z [-3; 1; 2];
                             map F64.of_Z [9; 9; 9]]) mag)
          "Difference magnitudes".

Definition pa1_view (items : gmap string Datum) : MeasurementView :=
  mkView PA1_metric (Some (mkQuantity (F64.of_Z 2) mag)) items.

(** A store with that measurement at address 1 and its extras at 2. *)
Definition pa1_heap (items : gmap string Datum) : heap :=
  <[1%positive := OMeasurement
       (mkMeasurementObj PA1_metric (Some (mkQuantity (F64.of_Z 2) mag))
                         2%positive)]>
    (<[2%positive := ODict items]> ∅).

Lemma pa1_heap_deref items :
  deref (pa1_heap items) 1%positive = Some (pa1_view items).
Proof.
  unfold deref, pa1_heap. rewrite lookup_insert_eq. simpl.
  rewrite lookup_insert_ne by discriminate. now rewrite lookup_insert_eq.
Qed.

Definition half : Quantity float := mkQuantity (F64.of_Z 50) percent.

Lemma two_trials_value unit_scale :
  PA2_value unit_scale {["magDiff" := two_trials]} half
  = Ok (mkQuantity (F64.of_Z 2) mag).
Proof.
  unfold PA2_value. rewrite lookup_singleton_eq. reflexivity.
Qed.

Lemma measurePA2_extras_witness :
  exists l h' v,
    measurePA2 no_scale PA2_metric 1%positive half
      (pa1_heap {["magDiff" := two_trials]}) = Return l h' /\
    deref h' l = Some v /\
    view_extras v = {["pf1_thresh" := pf1_thresh_datum half]}.
Proof.
  destruct (measurePA2_Return no_scale PA2_metric 1%positive half
              (pa1_heap {["magDiff" := two_trials]}) _ _
              (pa1_heap_deref _) (two_trials_value no_scale))
    as (l & h' & Hr & Hv).
  exists l, h'. eexists. split; [exact Hr|]. split; [exact Hv|].
  exact (proj1 (proj2 (measurePA2_extras no_scale PA2_metric 1%positive half
                         (pa1_heap {["magDiff" := two_trials]})
                         _ l h' _ (pa1_heap_deref _) Hr Hv))).
Defined.

(** measurePA2 changes no object of the store it is called in, whether it
    returns or raises; the Measurement it returns and the extras mapping of
    that Measurement are new objects. *)
Theorem measurePA2_frame unit_scale m pa1 pf1_thresh (h : heap) :
  let out := measurePA2 unit_scale m pa1 pf1_thresh h in
  h ⊆ final_heap out /\
  (forall va, deref h pa1 = Some va -> deref (final_heap out) pa1 = Some va) /\
  (forall l h', out = Return l h' -> is_new h l h').
Proof.
  intros out.
  assert (K : keeps h (measurePA2 unit_scale m pa1 pf1_thresh) (is_new h)).
  { unfold measurePA2, new_dict.
    apply keeps_bind with (P := fun d => h !! d = None).
    { eapply keeps_weaken; [apply keeps_alloc|]. now intros a h0 []. }
    intros d Hd.
    apply keeps_bind with (P := fun _ => True);
      [now apply keeps_dict_setitem|]. intros _ _.
    apply keeps_bind with (P := fun _ => True);
      [apply keeps_reader, read_measurement_heap|]. intros o _.
    apply keeps_bind with (P := fun _ => True);
      [apply keeps_reader, dict_getitem_heap|]. intros magDiff _.
    apply keeps_bind with (P := fun _ => True);
      [apply keeps_reader, lift_heap|]. intros magDiffs _.
    apply keeps_bind with (P := fun _ => True);
      [apply keeps_reader, lift_heap|]. intros pf1Percentile _.
    apply keeps_bind with (P := fun _ => True);
      [apply keeps_reader, lift_heap|]. intros p _.
    apply keeps_Measurement. }
  specialize (K h (reflexivity h)). fold out in K.
  assert (Hsub : h ⊆ final_heap out) by (destruct out; simpl; tauto).
  split; [exact Hsub|]. split.
  - intros va. now apply deref_weaken.
  - intros l h' E. rewrite E in K. tauto.
Qed.

(** Without a 'magDiff' item in the PA1 extras the call raises KeyError. *)
Theorem measurePA2_missing_magDiff unit_scale m pa1 pf1_thresh (h : heap) va :
  deref h pa1 = Some va ->
  view_extras va !! "magDiff" = None ->
  result_of (measurePA2 unit_scale m pa1 pf1_thresh h)
  = Err (KeyError "magDiff").
Proof.
  intros Hva Hmiss. rewrite (measurePA2_result_of _ _ _ _ _ _ Hva).
  unfold PA2_value. now rewrite Hmiss.
Qed.

Lemma measurePA2_missing_magDiff_witness :
  result_of (measurePA2 no_scale PA2_metric 1%positive half
               (pa1_heap {["rmsDistMas" := no_stars]}))
  = Err (KeyError "magDiff").
Proof.
  exact (measurePA2_missing_magDiff no_scale PA2_metric 1%positive half
           (pa1_heap {["rmsDistMas" := no_stars]})
           _ (pa1_heap_deref _) eq_refl).
Defined.






(** Only the absolute values of the first trial count: a PA1 measurement
    whose first trial has other signs, all else equal, gives the same
    result (the same Measurement, or the same exception). *)
Theorem measurePA2_sign_blind unit_scale m pf1_thresh
        (h1 h2 : heap) pa1 pa1' va1 va2 d1 d2 r1 r2 rest :
  deref h1 pa1 = Some va1 ->
  deref h2 pa1' = Some va2 ->
  view_extras va1 !! "magDiff" = Some d1 ->
  view_extras va2 !! "magDiff" = Some d2 ->
  datum_quantity d1 = mkQuantity (Arr2 (r1 :: rest)) (unit (datum_quantity d2)) ->
  value (datum_quantity d2) = Arr2 (r2 :: rest) ->
  np_abs r1 = np_abs r2 ->
  result_of (measurePA2 unit_scale m pa1 pf1_thresh h1) =
  result_of (measurePA2 unit_scale m pa1' pf1_thresh h2).
Proof.
  intros Hva1 Hva2 Hd1 Hd2 Hq1 Hq2 Habs.
  rewrite (measurePA2_result_of _ _ _ _ _ _ Hva1).
  rewrite (measurePA2_result_of _ _ _ _ _ _ Hva2).
  unfold PA2_value. rewrite Hd1, Hd2, Hq1, Hq2. simpl. now rewrite Habs.
Qed.

Definition two_trials_negated : Datum :=
  mkDatum (mkQuantity (Arr2 [map F64.of_Z [3; -1; -2];
                             map F64.of_Z [9; 9; 9]]) mag)
          "Difference magnitudes".

Lemma measurePA2_sign_blind_witness :
  result_of (measurePA2 no_scale PA2_metric 1%positive half
               (pa1_heap {["magDiff" := two_trials]}))
  = result_of (measurePA2 no_scale PA2_metric 1%positive half
                 (pa1_heap {["magDiff" := two_trials_negated]})).
Proof.
  exact (measurePA2_sign_blind no_scale PA2_metric half
           (pa1_heap {["magDiff" := two_trials]})
           (pa1_heap {["magDiff" := two_trials_negated]})
           1%positive 1%positive _ _ two_trials two_trials_negated
           (map F64.of_Z [-3; 1; 2]) (map F64.of_Z [3; -1; -2])
           [map F64.of_Z [9; 9; 9]]
           (pa1_heap_deref _) (pa1_heap_deref _)
           (lookup_singleton_eq _ _) (lookup_singleton_eq _ _)
           eq_refl eq_refl eq_refl).
Defined.

(* ===================================================================== *)
(** * Further properties of the performance summary *)
(* ===================================================================== *)

Import PerformanceSummary.

(** ** The insertion-ordered dict *)

Definition has_key {V} (k : string) (d : dict V) : bool :=
  existsb (String.eqb k) (keys d).

(** The keys after an assignment: unchanged for a key that is there, the
    new key last otherwise. *)
Lemma keys_after_set {V} k (v : V) (d : dict V) :
  keys (dict_set k v d) = if has_key k d then keys d else keys d ++ [k].
Proof.
  unfold has_key. induction d as [|[k0 v0] d IH]; simpl; [reflexivity|].
  destruct (String.eqb k k0) eqn:E; simpl.
  - apply String.eqb_eq in E. now subst k0.
  - rewrite IH. now destruct (existsb (String.eqb k) (keys d)).
Qed.

Lemma has_key_In {V} k (d : dict V) : has_key k d = true <-> In k (keys d).
Proof.
  unfold has_key. rewrite existsb_exists. split.
  - intros (k' & Hin & E). apply String.eqb_eq in E. now subst k'.
  - intros Hin. exists k. split; [exact Hin | apply String.eqb_refl].
Qed.

(** The names of a list in the order in which each appears first. *)
Fixpoint first_occurrences (names : list string) : list string :=
  match names with
  | [] => []
  | n :: rest =>
      n :: List.filter (fun n' => negb (String.eqb n' n))
                       (first_occurrences rest)
  end.

Lemma filter_filter {A} (p q : A -> bool) l :
  List.filter p (List.filter q l) = List.filter (fun x => q x && p x) l.
Proof.
  induction l as [|x l IH]; simpl; [reflexivity|].
  destruct (q x); simpl; [destruct (p x)|]; now rewrite IH.
Qed.

Lemma filter_all {A} (l : list A) : List.filter (fun _ => true) l = l.
Proof. induction l as [|x l IH]; simpl; [reflexivity | now rewrite IH]. Qed.

Section IngestProperties.

Variable load_json_output : string -> Result Job.
Variable get_filter_name_from_job : Job -> Result string.

(** The file is read without an exception and gives this Job and name. *)
Definition read_as (file : string) (jn : Job * string) : Prop :=
  load_json_output file = Ok (fst jn) /\
  get_filter_name_from_job (fst jn) = Ok (snd jn).

Lemma ingest_loop_keys filenames :
  forall read jobs0,
    Forall2 read_as filenames read ->
    exists jobs,
      ingest_loop load_json_output get_filter_name_from_job filenames jobs0
      = Ok jobs /\
      keys jobs =
      keys jobs0 ++
      List.filter (fun n => negb (has_key n jobs0))
                  (first_occurrences (map snd read)).
Proof.
  induction filenames as [|file rest IH]; intros read jobs0 Hread.
  - inversion Hread; subst. exists jobs0. simpl. now rewrite app_nil_r.
  - inversion Hread as [|? [job n] ? read' [Hload Hname] Hrest]; subst.
    simpl in Hload, Hname. simpl ingest_loop. rewrite Hload. simpl.
    rewrite Hname. simpl.
    destruct (IH read' (dict_set n job jobs0) Hrest) as (jobs & Hrun & Hkeys).
    exists jobs. split; [exact Hrun|].
    rewrite Hkeys, keys_after_set. simpl map. simpl first_occurrences.
    simpl List.filter. rewrite filter_filter.
    destruct (has_key n jobs0) eqn:Hn; simpl.
    + f_equal. apply List.filter_ext_in. intros n' _.
      unfold has_key. rewrite keys_after_set. fold (has_key n jobs0).
      rewrite Hn. fold (has_key n' jobs0).
      destruct (String.eqb n' n) eqn:E; simpl; [|reflexivity].
      apply String.eqb_eq in E. subst n'. now rewrite Hn.
    + rewrite <- app_assoc. simpl. do 2 f_equal.
      apply List.filter_ext_in. intros n' _.
      unfold has_key. rewrite keys_after_set. fold (has_key n jobs0).
      rewrite Hn, existsb_app. simpl. fold (has_key n' jobs0).
      rewrite orb_false_r, negb_orb. apply andb_comm.
Qed.

(** When every file is read, the mapping that ingest_data returns lists
    the filter names in the order in which each appears first among the
    files; a later file with a name already seen does not move it. *)
Theorem ingest_data_key_order filenames read :
  Forall2 read_as filenames read ->
  exists jobs,
    ingest_data load_json_output get_filter_name_from_job filenames
    = Ok jobs /\
    keys jobs = first_occurrences (map snd read).
Proof.
  intros Hread.
  destruct (ingest_loop_keys filenames read [] Hread) as (jobs & Hrun & Hkeys).
  exists jobs. split; [exact Hrun|]. rewrite Hkeys. simpl.
  apply filter_all.
Qed.

(** The first file that cannot be read, or whose Job has no filter name,
    ends ingest_data with its exception: no mapping is returned. *)
Theorem ingest_data_first_failure pre read file post e :
  Forall2 read_as pre read ->
  (load_json_output file = Err e \/
   exists job, load_json_output file = Ok job /\
               get_filter_name_from_job job = Err e) ->
  ingest_data load_json_output get_filter_name_from_job
              (pre ++ file :: post) = Err e.
Proof.
  intros Hread Hfail. unfold ingest_data. generalize (@nil (string * Job)).
  induction Hread as [|f [job n] pre' read' [Hload Hname] _ IH];
    intros jobs0; simpl.
  - destruct Hfail as [->|(job & -> & Hname)]; [reflexivity|].
    simpl. now rewrite Hname.
  - simpl in Hload, Hname. rewrite Hload. simpl. rewrite Hname. simpl.
    apply IH.
Qed.

End IngestProperties.

(** *** Sample files *)

Definition in_mag (spec : option string) (m : Metric) (x : Z) : Measurement :=
  mkMeasurement spec m (Some (mkQuantity (F64.of_Z x) mag)) (Some mag).

Definition job_r : Job := mkJob [in_mag (Some "design") PA1_metric 3].

Definition job_g : Job :=
  mkJob [in_mag (Some "design") PA1_metric 4;
         in_mag (Some "minimum") PA2_metric 9].

Definition job_r_again : Job :=
  mkJob [in_mag None PA1_metric 5; in_mag (Some "stretch") PA2_metric 7;
         in_mag (Some "design") PA2_metric 8].

Definition load_sample (file : string) : Result Job :=
  if String.eqb file "r.json" then Ok job_r
  else if String.eqb file "g.json" then Ok job_g
  else if String.eqb file "r_again.json" then Ok job_r_again
  else Err (IOError file).

(** The sample Jobs are told apart by their number of measurements. *)
Definition filter_sample (job : Job) : Result string :=
  match length (measurements job) with
  | 2%nat => Ok "g"
  | 0%nat => Err (KeyError "filter")
  | _ => Ok "r"
  end.

Lemma ingest_data_key_order_witness :
  exists jobs,
    ingest_data load_sample filter_sample ["r.json"; "g.json"; "r_again.json"]
    = Ok jobs /\
    keys jobs = ["r"; "g"].
Proof.
  apply (ingest_data_key_order load_sample filter_sample
           ["r.json"; "g.json"; "r_again.json"]
           [(job_r, "r"); (job_g, "g"); (job_r_again, "r")]).
  repeat constructor.
Defined.

Lemma ingest_data_first_failure_witness :
  ingest_data load_sample filter_sample ["r.json"; "lost.json"; "g.json"]
  = Err (IOError "lost.json").
Proof.
  apply (ingest_data_first_failure load_sample filter_sample
           ["r.json"] [(job_r, "r")] "lost.json" ["g.json"]).
  - repeat constructor.
  - left. reflexivity.
Defined.

(** ** objects_to_table *)

(** The measurement is of the level: its spec_name is unset or the level. *)
Definition of_level (level : string) (meas : Measurement) : bool :=
  match spec_name meas with
  | Some s => String.eqb s level
  | None => true
  end.

(** The measurements of the Jobs with the filter name of their Job, in the
    order of the mapping and, within a Job, of its list. *)
Definition tagged (jobs : dict Job) : list (string * Measurement) :=
  flat_map (fun item => map (pair (fst item)) (measurements (snd item))) jobs.

Definition tagged_of_level (level : string) (jobs : dict Job)
  : list (string * Measurement) :=
  List.filter (fun fm => of_level level (snd fm)) (tagged jobs).

(** One row for each measurement of a list, until a row fails. *)
Fixpoint rows_for (level : string) (fms : list (string * Measurement))
  : Result (list (list cell)) :=
  match fms with
  | [] => Ok []
  | fm :: rest =>
      match this_row level (fst fm) (snd fm) with
      | Ok r =>
          match rows_for level rest with
          | Ok rs => Ok (r :: rs)
          | Err e => Err e
          end
      | Err e => Err e
      end
  end.

Lemma rows_for_app level a b :
  rows_for level (a ++ b) =
  match rows_for level a with
  | Ok ra =>
      match rows_for level b with
      | Ok rb => Ok (ra ++ rb)
      | Err e => Err e
      end
  | Err e => Err e
  end.
Proof.
  induction a as [|fm a IH]; simpl; [now destruct (rows_for level b)|].
  destruct (this_row level (fst fm) (snd fm)); [|reflexivity].
  rewrite IH. destruct (rows_for level a); [|reflexivity].
  now destruct (rows_for level b).
Qed.

Lemma measurements_loop_rows level f ms :
  forall acc,
    measurements_loop level f ms acc =
    match rows_for level
            (List.filter (fun fm => of_level level (snd fm))
                         (map (pair f) ms)) with
    | Ok rs => Ok (acc ++ rs)
    | Err e => Err e
    end.
Proof.
  induction ms as [|meas ms IH]; intros acc; simpl.
  { now rewrite app_nil_r. }
  unfold of_level at 1. simpl.
  destruct (spec_name meas) as [s|].
  - destruct (String.eqb s level); simpl; [|apply IH].
    destruct (this_row level f meas) as [r|e]; simpl; [|reflexivity].
    rewrite IH. destruct (rows_for level _); [|reflexivity].
    now rewrite <- app_assoc.
  - simpl. destruct (this_row level f meas) as [r|e]; simpl; [|reflexivity].
    rewrite IH. destruct (rows_for level _); [|reflexivity].
    now rewrite <- app_assoc.
Qed.

Lemma objects_loop_rows level jobs :
  forall acc,
    objects_loop level jobs acc =
    match rows_for level (tagged_of_level level jobs) with
    | Ok rs => Ok (acc ++ rs)
    | Err e => Err e
    end.
Proof.
  unfold tagged_of_level.
  induction jobs as [|[f obj] jobs IH]; intros acc; simpl.
  { now rewrite app_nil_r. }
  rewrite measurements_loop_rows, List.filter_app, rows_for_app.
  destruct (rows_for level (List.filter _ (map (pair f) (measurements obj))))
    as [ra|e]; simpl; [|reflexivity].
  rewrite IH. destruct (rows_for level _); [|reflexivity].
  now rewrite app_assoc.
Qed.

(** The names of the seven columns. *)
Definition table_columns (level : string) : list string :=
  ["Metric"; "Filter"; "Value"; "Unit"; "Operator";
   String.append "SRD Requirement: " level; "Comments"].

Lemma objects_to_table_unfold jobs level :
  objects_to_table jobs level =
  match rows_for level (tagged_of_level level jobs) with
  | Ok [] => Err ValueError
  | Ok rs => Ok (mkTable (table_columns level)
                         (map (fun r => r ++ [CStr EmptyString]) rs))
  | Err e => Err e
  end.
Proof.
  unfold objects_to_table. rewrite objects_loop_rows.
  now destruct (rows_for level (tagged_of_level level jobs)) as [[|r rs]|].
Qed.

(** A table that is returned is made of the rows of the measurements of
    the level, and there is one at least. *)
Lemma objects_to_table_Ok jobs level table :
  objects_to_table jobs level = Ok table ->
  exists rs,
    rows_for level (tagged_of_level level jobs) = Ok rs /\
    rs <> [] /\
    table = mkTable (table_columns level)
                    (map (fun r => r ++ [CStr EmptyString]) rs).
Proof.
  rewrite objects_to_table_unfold.
  destruct (rows_for level (tagged_of_level level jobs)) as [[|r rs]|];
    try discriminate.
  intros [= <-]. exists (r :: rs). now repeat split.
Qed.

Lemma rows_for_Forall2 level fms rs :
  rows_for level fms = Ok rs ->
  Forall2 (fun fm r => this_row level (fst fm) (snd fm) = Ok r) fms rs.
Proof.
  revert rs. induction fms as [|fm fms IH]; simpl; intros rs.
  { intros [= <-]. constructor. }
  destruct (this_row level (fst fm) (snd fm)) as [r|] eqn:Hr; [|discriminate].
  destruct (rows_for level fms) as [rs'|]; [|discriminate].
  intros [= <-]. constructor; [exact Hr | now apply IH].
Qed.

(** The table is rectangular: seven named columns, seven cells in every
    row, the last an empty comment, and as many rows as the Jobs have
    measurements of the level. *)
Theorem objects_to_table_shape (jobs : dict Job) level table :
  objects_to_table jobs level = Ok table ->
  colnames table = table_columns level /\
  length (rows table) = length (tagged_of_level level jobs) /\
  Forall (fun row => length row = length (colnames table) /\
                     row !! 6%nat = Some (CStr EmptyString))
         (rows table).
Proof.
  intros Htable.
  destruct (objects_to_table_Ok _ _ _ Htable) as (rs & Hrs & _ & ->).
  clear Htable. simpl. apply rows_for_Forall2 in Hrs.
  split; [reflexivity|]. split.
  - rewrite length_map. symmetry. exact (Forall2_length _ _ _ Hrs).
  - induction Hrs as [|fm r fms rs' Hr _ IH]; simpl; constructor;
      [|exact IH].
    unfold this_row in Hr.
    destruct (get_spec (metric (snd fm)) level (fst fm)); [|discriminate].
    simpl in Hr. injection Hr as <-. now split.
Qed.

Definition jobs_rg : dict Job := [("r", job_r_again); ("g", job_g)].

Lemma objects_to_table_shape_witness :
  exists table,
    objects_to_table jobs_rg "design" = Ok table /\
    length (rows table) = 3%nat /\
    Forall (fun row => length row = 7%nat) (rows table).
Proof.
  eexists. split; [reflexivity|].
  destruct (objects_to_table_shape jobs_rg "design" _ eq_refl)
    as (_ & Hlen & Hrows).
  split; [exact Hlen|].
  eapply Forall_impl; [exact Hrows|]. intros row [H _]. exact H.
Defined.

(** The rows follow the mapping: Job by Job in the order of its keys, and
    within a Job in the order of its measurements. A row names the metric
    and the filter of its measurement, its unit and the operator of the
    metric, and holds the threshold that the metric specifies for the level
    and that filter. *)
Theorem objects_to_table_rows_in_order (jobs : dict Job) level table :
  objects_to_table jobs level = Ok table ->
  Forall2 (fun fm row =>
             row !! 0%nat = Some (CStr (name (metric (snd fm)))) /\
             row !! 1%nat = Some (CStr (fst fm)) /\
             row !! 3%nat = Some (unit_cell (unit (snd fm))) /\
             row !! 4%nat = Some (CStr (operator_str (metric (snd fm)))) /\
             exists spec,
               get_spec (metric (snd fm)) level (fst fm) = Ok spec /\
               row !! 5%nat = Some (CFloat (value (spec_quantity spec))))
          (tagged_of_level level jobs) (rows table).
Proof.
  intros Htable.
  destruct (objects_to_table_Ok _ _ _ Htable) as (rs & Hrs & _ & ->).
  clear Htable. simpl. apply rows_for_Forall2 in Hrs.
  induction Hrs as [|fm r fms rs' Hr _ IH]; simpl; constructor; [|exact IH].
  unfold this_row in Hr.
  destruct (get_spec (metric (snd fm)) level (fst fm)) as [spec|] eqn:Hspec;
    [|discriminate].
  simpl in Hr. injection Hr as <-. simpl.
  repeat (split; [reflexivity|]). now exists spec.
Qed.

Lemma objects_to_table_rows_in_order_witness :
  exists table,
    objects_to_table jobs_rg "design" = Ok table /\
    Forall2 (fun fm row => row !! 1%nat = Some (CStr (fst fm)))
            [("r", in_mag None PA1_metric 5);
             ("r", in_mag (Some "design") PA2_metric 8);
             ("g", in_mag (Some "design") PA1_metric 4)]
            (rows table).
Proof.
  eexists. split; [reflexivity|].
  eapply Forall2_impl;
    [exact (objects_to_table_rows_in_order jobs_rg "design" _ eq_refl)|].
  intros fm row (_ & H & _). exact H.
Defined.

Lemma rows_for_defined level fms :
  (exists rs, rows_for level fms = Ok rs) <->
  Forall (fun fm => exists spec,
              get_spec (metric (snd fm)) level (fst fm) = Ok spec) fms.
Proof.
  induction fms as [|fm fms IH]; simpl.
  { split; [constructor | now eexists]. }
  unfold this_row at 1.
  destruct (get_spec (metric (snd fm)) level (fst fm)) as [spec|e] eqn:Hspec;
    simpl.
  - split.
    + intros [rs Hrs]. constructor; [now exists spec|].
      apply IH. destruct (rows_for level fms); [now eexists|discriminate].
    + intros H. inversion H as [|? ? _ Hrest]; subst.
      apply IH in Hrest. destruct Hrest as [rs ->]. now eexists.
  - split; [now intros [rs Hrs]|].
    intros H. inversion H as [|? ? [spec Hs] _]; subst. congruence.
Qed.

Lemma rows_for_nil level fms :
  rows_for level fms = Ok [] -> fms = [].
Proof.
  intros H. apply rows_for_Forall2 in H. now inversion H.
Qed.

(** objects_to_table returns a table exactly when the Jobs have a
    measurement of the level and the metric of every measurement of the
    level has a specification for the level and the filter of its Job; the
    metrics of the measurements it skips are not asked. When no measurement
    is of the level no row is made, and the call ends with the ValueError
    of the Table that is given names and no row. *)
Theorem objects_to_table_defined (jobs : dict Job) level :
  ((exists table, objects_to_table jobs level = Ok table) <->
   tagged_of_level level jobs <> [] /\
   Forall (fun fm => exists spec,
               get_spec (metric (snd fm)) level (fst fm) = Ok spec)
          (tagged_of_level level jobs)) /\
  (tagged_of_level level jobs = [] ->
   objects_to_table jobs level = Err ValueError).
Proof.
  split.
  - rewrite <- rows_for_defined, objects_to_table_unfold.
    destruct (rows_for level (tagged_of_level level jobs)) as [[|r rs]|e]
      eqn:Hrs.
    + apply rows_for_nil in Hrs. split.
      * intros [x Hx]. discriminate.
      * intros [Hne _]. contradiction.
    + split; [|intros _; now eexists].
      intros _. split; [|now eexists].
      intros E. rewrite E in Hrs. discriminate.
    + split; [intros [x Hx]; discriminate|].
      intros [_ [x Hx]]. discriminate.
  - intros E. rewrite objects_to_table_unfold, E. reflexivity.
Qed.

(** The first measurement of the level whose metric has no specification
    ends objects_to_table with the exception of the lookup. *)
Theorem objects_to_table_first_failure (jobs : dict Job) level
        pre f meas post e :
  tagged_of_level level jobs = pre ++ (f, meas) :: post ->
  Forall (fun fm => exists spec,
              get_spec (metric (snd fm)) level (fst fm) = Ok spec) pre ->
  get_spec (metric meas) level f = Err e ->
  objects_to_table jobs level = Err e.
Proof.
  intros Hsplit Hpre Hfail.
  rewrite objects_to_table_unfold, Hsplit, rows_for_app.
  apply rows_for_defined in Hpre. destruct Hpre as [rs ->].
  simpl. unfold this_row. simpl. now rewrite Hfail.
Qed.

(** A metric that is specified at the design level only. *)
Definition design_only : Metric :=
  mkMetric "TE1" "<="
           (fun level _ => if String.eqb level "design" then Ok ten_percent
                           else Err (KeyError level)).

Definition jobs_te : dict Job :=
  [("r", mkJob [in_mag None PA1_metric 3; in_mag None design_only 1;
                in_mag None PA2_metric 5])].

Lemma objects_to_table_first_failure_witness :
  objects_to_table jobs_te "stretch" = Err (KeyError "stretch").
Proof.
  apply (objects_to_table_first_failure jobs_te "stretch"
           [("r", in_mag None PA1_metric 3)] "r" (in_mag None design_only 1)
           [("r", in_mag None PA2_metric 5)]).
  - reflexivity.
  - repeat constructor. now eexists.
  - reflexivity.
Defined.

(** ** The helpers of the report: find_col_name, blank_none, the format of
    the Value column *)

(** [find_col_name(prefix, colnames)]: the first name that starts with the
    prefix; Python's implicit [None] when the loop ends without one. *)
Fixpoint find_col_name (prefix : string) (colnames : list string)
  : option string :=
  match colnames with
  | [] => None
  | c :: rest =>
      if String.prefix prefix c then Some c else find_col_name prefix rest
  end.

(** [str(s)] for the values of a table; the text of a float is left to
    [float_repr]. *)
Definition py_str (float_repr : float -> string) (s : PyValue) : string :=
  match s with
  | PyNone => "None"
  | PyBool b => if b then "True" else "False"
  | PyInt z =>
      ((if Z.ltb z 0 then "-" else "") ++ string_of_N (Z.to_N (Z.abs z)))%string
  | PyFloat x => float_repr x
  | PyStr t => t
  | PyObject repr => repr
  end.

(** [s == 'None'] *)
Definition is_text_None (s : PyValue) : bool :=
  match s with
  | PyStr t => String.eqb t "None"
  | _ => false
  end.

(** [blank_none(s)] *)
Definition blank_none (float_repr : float -> string) (s : PyValue) : string :=
  match s with
  | PyNone => EmptyString
  | _ => if is_text_None s then EmptyString else py_str float_repr s
  end.

(** The value of a cell as the format function of its column receives it. *)
Definition cell_value (c : cell) : PyValue :=
  match c with
  | CStr s => PyStr s
  | CFloat x => PyFloat x
  | CNone => PyNone
  end.

(** The columns [write_report] selects, in the order it writes them: the
    fixed names and the two found by prefix, those the table has. *)
Definition use_col_names (colnames : list string) : list string :=
  let release_target_col_name := find_col_name "Release Target" colnames in
  let srd_requirement_col_name := find_col_name "SRD Requirement" colnames in
  let col_names := [Some "Metric"; Some "Filter"; Some "Unit"; Some "Operator";
                    srd_requirement_col_name; release_target_col_name;
                    Some "Value"; Some "Comments"] in
  flat_map (fun c => match c with
                     | Some n => if existsb (String.eqb n) colnames
                                 then [n] else []
                     | None => []
                     end) col_names.

(** find_col_name answers with the first name that starts with the prefix:
    it is in the list, and no name before it starts with the prefix; it
    answers None exactly when no name starts with the prefix. *)
Theorem find_col_name_first prefix colnames :
  (forall c, find_col_name prefix colnames = Some c <->
             exists before after,
               colnames = before ++ c :: after /\
               String.prefix prefix c = true /\
               Forall (fun n => String.prefix prefix n = false) before) /\
  (find_col_name prefix colnames = None <->
   Forall (fun n => String.prefix prefix n = false) colnames).
Proof.
  induction colnames as [|n rest [IHsome IHnone]]; simpl.
  - split.
    + intros c. split; [discriminate|].
      intros ([|? ?] & after & H & _); discriminate.
    + split; [constructor | reflexivity].
  - destruct (String.prefix prefix n) eqn:Hn.
    + split.
      * intros c. split.
        -- intros [= <-]. exists [], rest. now repeat split.
        -- intros ([|x before] & after & Hsplit & Hc & Hbefore).
           ++ now injection Hsplit as -> _.
           ++ injection Hsplit as -> _. inversion Hbefore; congruence.
      * split; [discriminate|]. intros H. inversion H; congruence.
    + split.
      * intros c. rewrite IHsome. split.
        -- intros (before & after & -> & Hc & Hbefore).
           exists (n :: before), after. repeat split; [exact Hc|].
           now constructor.
        -- intros ([|x before] & after & Hsplit & Hc & Hbefore).
           ++ injection Hsplit as -> _. congruence.
           ++ injection Hsplit as -> ->. exists before, after.
              repeat split; [exact Hc|]. now inversion Hbefore.
      * rewrite IHnone. split; [now constructor|].
        intros H. now inversion H.
Qed.

(** On the table of objects_to_table, write_report finds the requirement
    column of the level by its prefix and no release target column, and it
    writes all seven columns, the measured value moved behind the
    requirement. *)
Theorem report_columns_of_table (jobs : dict Job) level table :
  objects_to_table jobs level = Ok table ->
  find_col_name "SRD Requirement" (colnames table)
  = Some (String.append "SRD Requirement: " level) /\
  find_col_name "Release Target" (colnames table) = None /\
  use_col_names (colnames table)
  = ["Metric"; "Filter"; "Unit"; "Operator";
     String.append "SRD Requirement: " level; "Value"; "Comments"].
Proof.
  intros Htable.
  destruct (objects_to_table_shape jobs level table Htable) as (-> & _ & _).
  unfold use_col_names, table_columns. simpl.
  rewrite String.eqb_refl. simpl. auto.
Qed.

Lemma report_columns_of_table_witness :
  exists table,
    objects_to_table jobs_rg "minimum" = Ok table /\
    use_col_names (colnames table)
    = ["Metric"; "Filter"; "Unit"; "Operator"; "SRD Requirement: minimum";
       "Value"; "Comments"].
Proof.
  eexists. split; [reflexivity|].
  exact (proj2 (proj2 (report_columns_of_table jobs_rg "minimum" _ eq_refl))).
Defined.

(** blank_none never shows the text None for a missing value or a string:
    None and 'None' become the empty text, any other string is kept as it
    is, and formatting the result again changes nothing. *)
Theorem blank_none_text float_repr (s : PyValue) :
  s = PyNone \/ (exists t, s = PyStr t) ->
  blank_none float_repr s <> "None" /\
  (forall t, s = PyStr t -> t <> "None" -> blank_none float_repr s = t) /\
  (blank_none float_repr s = EmptyString <->
   s = PyNone \/ s = PyStr "None" \/ s = PyStr EmptyString) /\
  blank_none float_repr (PyStr (blank_none float_repr s))
  = blank_none float_repr s.
Proof.
  intros [->|[t ->]].
  - simpl. repeat split; try discriminate; auto.
  - simpl. destruct (String.eqb t "None") eqn:E.
    + apply String.eqb_eq in E. subst t.
      repeat split; try discriminate; auto. intros t [= <-] H. congruence.
    + assert (Hne : t <> "None") by (now apply String.eqb_neq).
      repeat split.
      * exact Hne.
      * now intros t' [= <-] _.
      * intros ->. now right; right.
      * intros [H|[H|H]]; inversion H; congruence.
      * now rewrite E.
Qed.

Lemma blank_none_text_witness :
  blank_none format_2f (PyStr "mag") = "mag" /\
  blank_none format_2f (PyStr (blank_none format_2f (PyStr "None")))
  = EmptyString.
Proof.
  split.
  - apply (proj1 (proj2 (blank_none_text format_2f (PyStr "mag")
                           (or_intror (ex_intro _ "mag" eq_refl))))
             "mag" eq_refl).
    discriminate.
  - exact (proj2 (proj2 (proj2 (blank_none_text format_2f (PyStr "None")
                                  (or_intror (ex_intro _ "None" eq_refl)))))).
Defined.

Lemma string_length_app (s1 s2 : string) :
  String.length (s1 ++ s2)%string
  = (String.length s1 + String.length s2)%nat.
Proof. induction s1 as [|c s1 IH]; simpl; [reflexivity | now rewrite IH]. Qed.

Lemma fixed2_length neg h : (3 <= String.length (fixed2 neg h))%nat.
Proof.
  unfold fixed2. rewrite !string_length_app. simpl. lia.
Qed.

(** The text of a number is never the dash. *)
Lemma format_2f_not_dash x : format_2f x <> "--".
Proof.
  destruct x as [s|[|]| |s m e]; simpl; try discriminate;
    intros H; pose proof (fixed2_length s) as L;
    [specialize (L 0) | specialize (L (hundredths m e))];
    rewrite H in L; simpl in L; lia.
Qed.

(** The Value column as the report shows it (its format is float_or_dash):
    the text is the dash exactly for a measurement without a quantity; a
    measurement with a quantity shows it with two decimals, and one whose
    quantity is NaN shows 'nan'. *)
Theorem report_value_text (jobs : dict Job) level table :
  objects_to_table jobs level = Ok table ->
  Forall2 (fun fm row =>
             exists c,
               row !! 2%nat = Some c /\
               (float_or_dash (cell_value c) = "--"
                <-> quantity (snd fm) = None) /\
               (forall q, quantity (snd fm) = Some q ->
                          float_or_dash (cell_value c) = format_2f (value q) /\
                          (np_isnan (value q) = true ->
                           float_or_dash (cell_value c) = "nan")))
          (tagged_of_level level jobs) (rows table).
Proof.
  intros Htable.
  destruct (objects_to_table_Ok _ _ _ Htable) as (rs & Hrs & _ & ->).
  clear Htable. simpl. apply rows_for_Forall2 in Hrs.
  induction Hrs as [|fm r fms rs' Hr _ IH]; simpl; constructor; [|exact IH].
  unfold this_row in Hr.
  destruct (get_spec (metric (snd fm)) level (fst fm)); [|discriminate].
  simpl in Hr. injection Hr as <-. simpl.
  destruct (quantity (snd fm)) as [q|].
  - exists (CFloat (value q)). split; [reflexivity|]. split.
    + split; [|discriminate]. intros H. now apply format_2f_not_dash in H.
    + intros q' [= <-]. split; [reflexivity|].
      unfold np_isnan. simpl. destruct (value q); try discriminate.
      reflexivity.
  - exists (CStr "--"). split; [reflexivity|]. split.
    + split; reflexivity.
    + discriminate.
Qed.

Definition jobs_odd : dict Job :=
  [("i", mkJob [mkMeasurement None PA1_metric
                              (Some (mkQuantity F64.nan mag)) (Some mag);
                mkMeasurement None PA2_metric None None])].

Lemma report_value_text_witness :
  exists table,
    objects_to_table jobs_odd "design" = Ok table /\
    Forall2 (fun fm row =>
               exists c,
                 row !! 2%nat = Some c /\
                 (float_or_dash (cell_value c) = "--"
                  <-> quantity (snd fm) = None))
            (tagged_of_level "design" jobs_odd) (rows table).
Proof.
  eexists. split; [reflexivity|].
  eapply Forall2_impl;
    [exact (report_value_text jobs_odd "design" _ eq_refl)|].
  intros fm row (c & Hc & Hdash & _). now exists c.
Defined.

(** ** add_release_metric *)

Fixpoint column_index (name : string) (colnames : list string) : option nat :=
  match colnames with
  | [] => None
  | c :: rest =>
      if String.eqb c name then Some 0%nat
      else option_map S (column_index name rest)
  end.

(** [row[name]]: the cell of the row in the column of that name. *)
Definition row_getitem (colnames : list string) (row : list cell)
           (name : string) : Result cell :=
  match column_index name colnames with
  | None => Err (KeyError name)
  | Some i =>
      match row !! i with
      | Some c => Ok c
      | None => Err IndexError
      end
  end.

(** [release_metrics[key]] for the content of a cell. *)
Definition release_metrics_getitem (float_repr : float -> string)
           (release_metrics : gmap string Metric) (key : cell)
  : Result Metric :=
  match key with
  | CStr n =>
      match release_metrics !! n with
      | Some m => Ok m
      | None => Err (KeyError n)
      end
  | _ => Err (KeyError (py_str float_repr (cell_value key)))
  end.

(** The body of the loop of [add_release_metric]: the release target of a
    row. The Filter column holds text. *)
Definition release_target (float_repr : float -> string)
           (release_metrics : gmap string Metric)
           (release_metrics_level : string)
           (colnames : list string) (row : list cell) : Result float :=
  (try key <- row_getitem colnames row "Metric";
   try metric <- release_metrics_getitem float_repr release_metrics key;
   try filter <- row_getitem colnames row "Filter";
   try spec <- match filter with
               | CStr f => get_spec metric release_metrics_level f
               | _ => Err TypeError
               end;
   Ok (value (spec_quantity spec)))%result.

Fixpoint release_targets_loop (float_repr : float -> string)
         (release_metrics : gmap string Metric)
         (release_metrics_level : string) (colnames : list string)
         (data_rows : list (list cell)) (release_targets : list float)
  : Result (list float) :=
  match data_rows with
  | [] => Ok release_targets
  | row :: rest =>
      (try x <- release_target float_repr release_metrics
                               release_metrics_level colnames row;
       release_targets_loop float_repr release_metrics release_metrics_level
                            colnames rest (release_targets ++ [x]))%result
  end.

(** [add_release_metric(data, release_metrics, release_metrics_level)]: the
    table with the new column; a table cannot take a second column of a
    name it has. *)
Definition add_release_metric (float_repr : float -> string) (data : Table)
           (release_metrics : gmap string Metric)
           (release_metrics_level : string) : Result Table :=
  (try release_targets <-
     release_targets_loop float_repr release_metrics release_metrics_level
                          (colnames data) (rows data) [];
   let name := String.append "Release Target: " release_metrics_level in
   if existsb (String.eqb name) (colnames data) then Err ValueError
   else Ok (mkTable (colnames data ++ [name])
                    (zip_with (fun row x => row ++ [CFloat x])
                              (rows data) release_targets)))%result.

(** The targets of a list of rows, one each, until one fails. *)
Fixpoint targets_for (float_repr : float -> string)
         (release_metrics : gmap string Metric) (level : string)
         (colnames : list string) (data_rows : list (list cell))
  : Result (list float) :=
  match data_rows with
  | [] => Ok []
  | row :: rest =>
      match release_target float_repr release_metrics level colnames row with
      | Ok x =>
          match targets_for float_repr release_metrics level colnames rest with
          | Ok xs => Ok (x :: xs)
          | Err e => Err e
          end
      | Err e => Err e
      end
  end.

Lemma release_targets_loop_targets fr rm level cols data_rows :
  forall acc,
    release_targets_loop fr rm level cols data_rows acc =
    match targets_for fr rm level cols data_rows with
    | Ok xs => Ok (acc ++ xs)
    | Err e => Err e
    end.
Proof.
  induction data_rows as [|row rest IH]; intros acc; simpl.
  { now rewrite app_nil_r. }
  destruct (release_target fr rm level cols row) as [x|e]; simpl;
    [|reflexivity].
  rewrite IH. destruct (targets_for fr rm level cols rest); [|reflexivity].
  now rewrite <- app_assoc.
Qed.

Lemma targets_for_Forall2 fr rm level cols data_rows xs :
  targets_for fr rm level cols data_rows = Ok xs ->
  Forall2 (fun row x => release_target fr rm level cols row = Ok x)
          data_rows xs.
Proof.
  revert xs. induction data_rows as [|row rest IH]; simpl; intros xs.
  { intros [= <-]. constructor. }
  destruct (release_target fr rm level cols row) as [x|] eqn:Hx;
    [|discriminate].
  destruct (targets_for fr rm level cols rest) as [xs'|]; [|discriminate].
  intros [= <-]. constructor; [exact Hx | now apply IH].
Qed.

(** What a release target is, when the row has one. *)
Lemma release_target_Ok fr rm level cols row x :
  release_target fr rm level cols row = Ok x ->
  exists n f metric spec,
    row_getitem cols row "Metric" = Ok (CStr n) /\
    rm !! n = Some metric /\
    row_getitem cols row "Filter" = Ok (CStr f) /\
    get_spec metric level f = Ok spec /\
    x = value (spec_quantity spec).
Proof.
  unfold release_target.
  destruct (row_getitem cols row "Metric") as [key|]; [|discriminate].
  simpl. destruct key as [n|y|]; simpl; try discriminate.
  destruct (rm !! n) as [metric|] eqn:Hn; [|discriminate]. simpl.
  destruct (row_getitem cols row "Filter") as [filter|]; [|discriminate].
  simpl. destruct filter as [f|y|]; simpl; try discriminate.
  destruct (get_spec metric level f) as [spec|] eqn:Hs; [|discriminate].
  simpl. intros [= <-]. now exists n, f, metric, spec.
Qed.

(** When add_release_metric returns, the table has one more column, named
    after the release level and placed last; every row keeps its cells and
    gains one, the threshold that the release metric of the row's Metric
    name specifies at the release level for the row's Filter. *)
Theorem add_release_metric_appends fr (data : Table) rm level data' :
  add_release_metric fr data rm level = Ok data' ->
  colnames data'
  = colnames data ++ [String.append "Release Target: " level] /\
  ~ In (String.append "Release Target: " level) (colnames data) /\
  Forall2 (fun row row' =>
             exists n f metric spec,
               row_getitem (colnames data) row "Metric" = Ok (CStr n) /\
               rm !! n = Some metric /\
               row_getitem (colnames data) row "Filter" = Ok (CStr f) /\
               get_spec metric level f = Ok spec /\
               row' = row ++ [CFloat (value (spec_quantity spec))])
          (rows data) (rows data').
Proof.
  unfold add_release_metric. rewrite release_targets_loop_targets.
  destruct (targets_for fr rm level (colnames data) (rows data)) as [xs|]
    eqn:Hxs; [|discriminate].
  simpl.
  destruct (existsb _ (colnames data)) eqn:Hdup; [discriminate|].
  intros [= <-]. simpl. split; [reflexivity|]. split.
  - intros Hin. apply not_true_iff_false in Hdup. apply Hdup.
    apply existsb_exists. eexists. split; [exact Hin|].
    apply String.eqb_refl.
  - apply targets_for_Forall2 in Hxs.
    induction Hxs as [|row x data_rows xs' Hx _ IH]; simpl; constructor;
      [|exact IH].
    destruct (release_target_Ok _ _ _ _ _ _ Hx)
      as (n & f & metric & spec & H1 & H2 & H3 & H4 & ->).
    now exists n, f, metric, spec.
Qed.

(** The first row whose Metric name the release metrics do not have ends
    add_release_metric with KeyError for that name: no column is added. *)
Theorem add_release_metric_KeyError fr (data : Table) rm level
        before row after n :
  rows data = before ++ row :: after ->
  Forall (fun r => exists x,
              release_target fr rm level (colnames data) r = Ok x) before ->
  row_getitem (colnames data) row "Metric" = Ok (CStr n) ->
  rm !! n = None ->
  add_release_metric fr data rm level = Err (KeyError n).
Proof.
  intros Hrows Hbefore Hkey Hmiss.
  unfold add_release_metric. rewrite release_targets_loop_targets, Hrows.
  clear Hrows.
  assert (H : targets_for fr rm level (colnames data)
                          (before ++ row :: after) = Err (KeyError n)).
  { induction Hbefore as [|r before' [x Hx] _ IH]; simpl.
    - unfold release_target. rewrite Hkey. simpl. now rewrite Hmiss.
    - now rewrite Hx, IH. }
  now rewrite H.
Qed.

(** *** Sample release metrics *)

Definition release_spec (x : Z) : Specification :=
  mkSpecification (mkQuantity (F64.of_Z x) mag).

Definition FY17 : gmap string Metric :=
  <["PA1" := mkMetric "PA1" "<=" (fun _ _ => Ok (release_spec 13))]>
    (<["PA2" := mkMetric "PA2" "<=" (fun _ _ => Ok (release_spec 21))]> ∅).

Definition FY17_without_PA2 : gmap string Metric :=
  <["PA1" := mkMetric "PA1" "<=" (fun _ _ => Ok (release_spec 13))]> ∅.

(** The table of the sample Jobs at the design level. *)
Definition table_rg : Table :=
  mkTable (table_columns "design")
          [[CStr "PA1"; CStr "r"; CFloat (F64.of_Z 5); CStr mag; CStr "<=";
            CFloat (F64.of_Z 10); CStr EmptyString];
           [CStr "PA2"; CStr "r"; CFloat (F64.of_Z 8); CStr mag; CStr "<=";
            CFloat (F64.of_Z 10); CStr EmptyString];
           [CStr "PA1"; CStr "g"; CFloat (F64.of_Z 4); CStr mag; CStr "<=";
            CFloat (F64.of_Z 10); CStr EmptyString]].

Lemma table_rg_is_table : objects_to_table jobs_rg "design" = Ok table_rg.
Proof. reflexivity. Qed.

Lemma add_release_metric_appends_witness :
  exists data',
    add_release_metric format_2f table_rg FY17 "FY17" = Ok data' /\
    colnames data' = colnames table_rg ++ ["Release Target: FY17"] /\
    length (rows data') = 3%nat.
Proof.
  eexists. split; [vm_compute; reflexivity|].
  destruct (add_release_metric_appends format_2f table_rg FY17 "FY17" _
              eq_refl) as (Hcols & _ & Hrows).
  split; [exact Hcols|].
  apply Forall2_length in Hrows.
  transitivity (length (rows table_rg)); [symmetry; exact Hrows | reflexivity].
Defined.

Lemma add_release_metric_KeyError_witness :
  add_release_metric format_2f table_rg FY17_without_PA2 "FY17"
  = Err (KeyError "PA2").
Proof.
  apply (add_release_metric_KeyError format_2f table_rg FY17_without_PA2
           "FY17"
           [[CStr "PA1"; CStr "r"; CFloat (F64.of_Z 5); CStr mag; CStr "<=";
             CFloat (F64.of_Z 10); CStr EmptyString]]
           [CStr "PA2"; CStr "r"; CFloat (F64.of_Z 8); CStr mag; CStr "<=";
            CFloat (F64.of_Z 10); CStr EmptyString]
           [[CStr "PA1"; CStr "g"; CFloat (F64.of_Z 4); CStr mag; CStr "<=";
             CFloat (F64.of_Z 10); CStr EmptyString]]
           "PA2").
  - reflexivity.
  - repeat constructor. eexists. vm_compute. reflexivity.
  - reflexivity.
  - reflexivity.
Defined.

Lemma targets_for_defined fr rm level cols data_rows :
  Forall (fun row => exists x, release_target fr rm level cols row = Ok x)
         data_rows ->
  exists xs, targets_for fr rm level cols data_rows = Ok xs /\
             length xs = length data_rows.
Proof.
  induction 1 as [|row rest [x Hx] _ (xs & IH & Hlen)]; simpl.
  - now exists [].
  - rewrite Hx, IH. exists (x :: xs). simpl. now rewrite Hlen.
Qed.

(** The tables of [run]: a table of objects_to_table takes the release
    targets whenever the release metrics have, for every measurement of the
    level, a metric of its name with a specification at the release level
    for its filter. The report then has eight columns, the release target
    between the requirement and the measured value. *)
Theorem release_report_columns fr (jobs : dict Job) level table rm
        release_level :
  objects_to_table jobs level = Ok table ->
  Forall (fun fm => exists release_metric spec,
              rm !! name (metric (snd fm)) = Some release_metric /\
              get_spec release_metric release_level (fst fm) = Ok spec)
         (tagged_of_level level jobs) ->
  exists data',
    add_release_metric fr table rm release_level = Ok data' /\
    length (rows data') = length (rows table) /\
    find_col_name "Release Target" (colnames data')
    = Some (String.append "Release Target: " release_level) /\
    use_col_names (colnames data')
    = ["Metric"; "Filter"; "Unit"; "Operator";
       String.append "SRD Requirement: " level;
       String.append "Release Target: " release_level; "Value"; "Comments"].
Proof.
  intros Htable Hrm.
  destruct (objects_to_table_Ok _ _ _ Htable) as (rs & Hrs & _ & ->).
  clear Htable. apply rows_for_Forall2 in Hrs.
  assert (Hall : Forall (fun row => exists x,
                           release_target fr rm release_level
                                          (table_columns level) row = Ok x)
                        (map (fun r => r ++ [CStr EmptyString]) rs)).
  { induction Hrs as [|fm r fms rs' Hr _ IH]; simpl; [constructor|].
    inversion Hrm as [|? ? (release_metric & spec & Hm & Hs) Hrm']; subst.
    constructor; [|now apply IH].
    unfold this_row in Hr.
    destruct (get_spec (metric (snd fm)) level (fst fm)); [|discriminate].
    simpl in Hr. injection Hr as <-.
    exists (value (spec_quantity spec)).
    unfold release_target, row_getitem, table_columns. simpl.
    rewrite Hm. simpl. now rewrite Hs. }
  destruct (targets_for_defined _ _ _ _ _ Hall) as (xs & Hxs & Hlen).
  unfold add_release_metric. simpl rows. simpl colnames.
  rewrite release_targets_loop_targets, Hxs. simpl.
  eexists. split; [reflexivity|]. simpl. split.
  - rewrite length_zip_with_l_eq; [reflexivity | now rewrite Hlen].
  - unfold use_col_names. simpl. rewrite !String.eqb_refl. simpl. auto.
Qed.

Lemma release_report_columns_witness :
  exists data',
    add_release_metric format_2f table_rg FY17 "FY17" = Ok data' /\
    use_col_names (colnames data')
    = ["Metric"; "Filter"; "Unit"; "Operator"; "SRD Requirement: design";
       "Release Target: FY17"; "Value"; "Comments"].
Proof.
  destruct (release_report_columns format_2f jobs_rg "design" table_rg FY17
              "FY17" table_rg_is_table) as (data' & Hrun & _ & _ & Hcols).
  { repeat constructor; eexists; eexists; split; reflexivity. }
  exists data'. split; [exact Hrun | exact Hcols].
Defined.

(* ===================================================================== *)
(** * matchedVisitMetricsTask.py: MatchedVisitMetricsRunner.getTargetList *)
(* ===================================================================== *)

(** A data ID: a dict from key names to values. The code reads the item
    under 'filter' only, the name of the filter, which is a str in the data
    IDs of a butler; the other items are carried along as they are. *)
Record DataId : Type := mkDataId {
  filter_item : option string;
  other_items : gmap string PyValue
}.

(** A data reference, with its [dataId]. *)
Record DataRef : Type := mkDataRef { dataId : DataId }.

(** [ref.dataId["filter"]] *)
Definition dataId_filter (d : DataId) : Result string :=
  match filter_item d with
  | Some f => Ok f
  | None => Err (KeyError "filter")
  end.

(** [d.setdefault(k, []).append(v)] *)
Definition setdefault_append {V} (k : string) (v : V) (d : dict (list V))
  : dict (list V) :=
  match dict_get k d with
  | Some l => dict_set k (l ++ [v]) d
  | None => dict_set k [v] d
  end.

(** The loop over [parsedCmd.id.refList]. *)
Fixpoint organize (refList : list DataRef) (idListDict : dict (list DataId))
  : Result (dict (list DataId)) :=
  match refList with
  | [] => Ok idListDict
  | ref :: rest =>
      (try f <- dataId_filter (dataId ref);
       organize rest (setdefault_append f (dataId ref) idListDict))%result
  end.

Fixpoint insert_name (n : string) (l : list string) : list string :=
  match l with
  | [] => [n]
  | m :: l' => if String.leb n m then n :: l else m :: insert_name n l'
  end.

(** [sorted(names)] for strings: ascending by code points. *)
Definition sorted (names : list string) : list string :=
  fold_right insert_name [] names.

Section GetTargetList.

Variable Butler : Type.

Record ParsedCmd : Type := mkParsedCmd {
  butler : Butler;
  output : string;
  refList : list DataRef
}.

(** The list comprehension over the sorted filter names. *)
Fixpoint targets_of (parsedCmd : ParsedCmd) (idListDict : dict (list DataId))
         (filterNames : list string)
  : Result (list (Butler * string * string * list DataId)) :=
  match filterNames with
  | [] => Ok []
  | filterName :: rest =>
      match dict_get filterName idListDict with
      | None => Err (KeyError filterName)
      | Some ids =>
          (try ts <- targets_of parsedCmd idListDict rest;
           Ok ((butler parsedCmd, filterName, output parsedCmd, ids) :: ts))
            %result
      end
  end.

(** [getTargetList(parsedCmd)] *)
Definition getTargetList (parsedCmd : ParsedCmd)
  : Result (list (Butler * string * string * list DataId)) :=
  (try idListDict <- organize (refList parsedCmd) [];
   targets_of parsedCmd idListDict (sorted (keys idListDict)))%result.

End GetTargetList.

Arguments butler {Butler} p.
Arguments output {Butler} p.
Arguments refList {Butler} p.
Arguments mkParsedCmd {Butler} butler output refList.
Arguments getTargetList {Butler} parsedCmd.
Arguments targets_of {Butler} parsedCmd idListDict filterNames.

(** ** Lookup and assignment in the dict *)

Lemma dict_get_same {V} k (v : V) d : dict_get k (dict_set k v d) = Some v.
Proof.
  induction d as [|[k0 v0] d IH]; simpl; [now rewrite String.eqb_refl|].
  destruct (String.eqb k k0) eqn:E; simpl; now rewrite ?String.eqb_refl, ?E.
Qed.

Lemma dict_get_other {V} k k' (v : V) d :
  k' <> k -> dict_get k' (dict_set k v d) = dict_get k' d.
Proof.
  intros Hne. apply String.eqb_neq in Hne.
  induction d as [|[k0 v0] d IH]; simpl; [now rewrite Hne|].
  destruct (String.eqb k k0) eqn:E; simpl.
  - apply String.eqb_eq in E. subst k0. now rewrite Hne.
  - now rewrite IH.
Qed.

Lemma dict_get_keys {V} k (d : dict V) :
  In k (keys d) <-> exists v, dict_get k d = Some v.
Proof.
  induction d as [|[k0 v0] d IH]; simpl.
  - split; [tauto | now intros [v H]].
  - destruct (String.eqb k k0) eqn:E.
    + apply String.eqb_eq in E. subst k0. split; [now eexists | now left].
    + apply String.eqb_neq in E. rewrite <- IH. split; [|now right].
      intros [H|H]; [congruence | exact H].
Qed.

Lemma keys_set_NoDup {V} k (v : V) d :
  NoDup (keys d) -> NoDup (keys (dict_set k v d)).
Proof.
  intros Hnd. rewrite keys_after_set.
  destruct (has_key k d) eqn:Hk; [exact Hnd|].
  apply NoDup_app. split; [exact Hnd|]. split.
  - intros x Hx [->|[]]%list_elem_of_In. apply list_elem_of_In in Hx.
    apply has_key_In in Hx. congruence.
  - repeat constructor. intros []%list_elem_of_In.
Qed.

Lemma keys_set_In {V} k (v : V) d k' :
  In k' (keys (dict_set k v d)) <-> k' = k \/ In k' (keys d).
Proof.
  rewrite keys_after_set. destruct (has_key k d) eqn:Hk.
  - apply has_key_In in Hk. split; [now right|]. now intros [->|H].
  - rewrite in_app_iff. simpl. intuition.
Qed.

(** ** The sort of the filter names *)

Definition name_le (a b : string) : Prop := String.leb a b = true.

Definition name_lt (a b : string) : Prop := String.ltb a b = true.

Lemma insert_name_perm n l : Permutation (insert_name n l) (n :: l).
Proof.
  induction l as [|m l IH]; simpl; [reflexivity|].
  destruct (String.leb n m); [reflexivity|].
  rewrite IH. apply perm_swap.
Qed.

Lemma sorted_perm l : Permutation (sorted l) l.
Proof.
  induction l as [|n l IH]; simpl; [reflexivity|].
  rewrite insert_name_perm. now constructor.
Qed.

Lemma insert_name_Sorted n l :
  Sorted name_le l -> Sorted name_le (insert_name n l).
Proof.
  induction 1 as [|m l Hs IH Hd]; simpl; [repeat constructor|].
  destruct (String.leb n m) eqn:E.
  - constructor; [now constructor | now constructor].
  - constructor; [exact IH|].
    assert (Hmn : name_le m n).
    { destruct (String.leb_total n m) as [H|H]; [congruence | exact H]. }
    destruct l as [|k l]; simpl; [now constructor|].
    destruct (String.leb n k); constructor; [exact Hmn|].
    now inversion Hd.
Qed.

Lemma sorted_Sorted l : Sorted name_le (sorted l).
Proof.
  induction l as [|n l IH]; simpl; [constructor | now apply insert_name_Sorted].
Qed.

Lemma name_lt_of_le a b : name_le a b -> a <> b -> name_lt a b.
Proof.
  unfold name_le, name_lt, String.leb, String.ltb. intros Hle Hne.
  destruct (String.compare a b) eqn:E; try reflexivity; try discriminate.
  now apply String.compare_eq_iff in E.
Qed.

(** Sorted names without repetition ascend strictly. *)
Lemma Sorted_strict l : Sorted name_le l -> NoDup l -> Sorted name_lt l.
Proof.
  induction 1 as [|a l Hs IH Hd]; intros Hnd; [constructor|].
  apply NoDup_cons in Hnd. destruct Hnd as [Hnotin Hnd].
  constructor; [now apply IH|].
  destruct Hd as [|b l Hab]; constructor.
  apply name_lt_of_le; [exact Hab|].
  intros ->. apply Hnotin. now left.
Qed.

(** ** The grouping *)

(** The data IDs filed under a filter name. *)
Definition ids_of (f : string) (d : dict (list DataId)) : list DataId :=
  match dict_get f d with
  | Some l => l
  | None => []
  end.

(** The reference is for this filter. *)
Definition with_filter (f : string) (ref : DataRef) : bool :=
  match dataId_filter (dataId ref) with
  | Ok n => String.eqb n f
  | Err _ => false
  end.

Definition filled (d : dict (list DataId)) : Prop :=
  forall f l, dict_get f d = Some l -> l <> [].

Lemma filled_nil : filled [].
Proof. intros f l H. discriminate H. Qed.

Lemma setdefault_append_ids n (v : DataId) d f :
  ids_of f (setdefault_append n v d)
  = ids_of f d ++ (if String.eqb n f then [v] else []).
Proof.
  unfold ids_of, setdefault_append.
  destruct (String.eqb n f) eqn:E.
  - apply String.eqb_eq in E. subst f.
    destruct (dict_get n d) as [l|]; now rewrite dict_get_same.
  - apply String.eqb_neq in E.
    destruct (dict_get n d) as [l|]; rewrite dict_get_other by congruence;
      now rewrite app_nil_r.
Qed.

Lemma setdefault_append_filled n (v : DataId) d :
  filled d -> filled (setdefault_append n v d).
Proof.
  intros Hd f l. unfold setdefault_append.
  destruct (String.eqb n f) eqn:E.
  - apply String.eqb_eq in E. subst f.
    destruct (dict_get n d) as [l0|]; rewrite dict_get_same;
      intros [= <-]; [destruct l0|]; discriminate.
  - apply String.eqb_neq in E.
    destruct (dict_get n d) as [l0|]; rewrite dict_get_other by congruence;
      apply Hd.
Qed.

Lemma setdefault_append_keys n (v : DataId) d :
  NoDup (keys d) ->
  NoDup (keys (setdefault_append n v d)) /\
  forall f, In f (keys (setdefault_append n v d)) <-> f = n \/ In f (keys d).
Proof.
  intros Hnd. unfold setdefault_append.
  destruct (dict_get n d); (split; [now apply keys_set_NoDup|]);
    intros f; apply keys_set_In.
Qed.

Lemma organize_groups refs :
  forall names acc,
    Forall2 (fun ref n => dataId_filter (dataId ref) = Ok n) refs names ->
    NoDup (keys acc) -> filled acc ->
    exists d,
      organize refs acc = Ok d /\
      NoDup (keys d) /\ filled d /\
      (forall f, ids_of f d
                 = ids_of f acc
                   ++ map dataId (List.filter (with_filter f) refs)) /\
      (forall f, In f (keys d) <-> In f (keys acc) \/ In f names).
Proof.
  induction refs as [|ref refs IH]; intros names acc Hnames Hnd Hfilled.
  - inversion Hnames; subst. exists acc. simpl.
    repeat split; try assumption.
    + intros f. now rewrite app_nil_r.
    + now left.
    + now intros [H|[]].
  - inversion Hnames as [|? n ? names' Hn Hrest]; subst.
    simpl organize. rewrite Hn. simpl.
    destruct (setdefault_append_keys n (dataId ref) acc Hnd) as [Hnd' Hkeys'].
    destruct (IH names' (setdefault_append n (dataId ref) acc) Hrest Hnd'
                 (setdefault_append_filled _ _ _ Hfilled))
      as (d & Hrun & Hnd'' & Hfilled' & Hids & Hkeys).
    exists d. repeat split; try assumption.
    + intros f. rewrite Hids, setdefault_append_ids, <- app_assoc.
      f_equal. simpl. unfold with_filter at 2. rewrite Hn.
      now destruct (String.eqb n f).
    + rewrite Hkeys, Hkeys'. simpl. intuition.
    + rewrite Hkeys, Hkeys'. simpl. intuition.
Qed.

(** The parts of a target. *)
Definition target_filter {Butler} (t : Butler * string * string * list DataId)
  : string := snd (fst (fst t)).

Definition target_ids {Butler} (t : Butler * string * string * list DataId)
  : list DataId := snd t.

Lemma targets_of_keys {Butler} (cmd : ParsedCmd Butler) d names :
  (forall n, In n names -> In n (keys d)) ->
  exists targets,
    targets_of cmd d names = Ok targets /\
    map target_filter targets = names /\
    Forall (fun t => fst (fst (fst t)) = butler cmd /\
                     snd (fst t) = output cmd /\
                     target_ids t = ids_of (target_filter t) d) targets.
Proof.
  induction names as [|n names IH]; intros Hin; simpl.
  - exists []. repeat split; constructor.
  - destruct (proj1 (dict_get_keys n d) (Hin n (or_introl eq_refl)))
      as [ids Hids].
    rewrite Hids.
    destruct IH as (ts & -> & Hmap & Hall); [intros; apply Hin; now right|].
    simpl. eexists. split; [reflexivity|]. simpl. split; [now rewrite Hmap|].
    constructor; [|exact Hall].
    unfold target_ids, target_filter, ids_of. simpl. now rewrite Hids.
Qed.

(** When every reference has a filter, getTargetList files each reference
    under its filter and answers with one target per filter, the filter
    names ascending strictly; the data IDs of a target are those of the
    references with its filter, in the order of the references, at least
    one. Every target carries the butler and the output of the command. *)
Theorem getTargetList_groups {Butler} (parsedCmd : ParsedCmd Butler) names :
  Forall2 (fun ref n => dataId_filter (dataId ref) = Ok n)
          (refList parsedCmd) names ->
  exists targets,
    getTargetList parsedCmd = Ok targets /\
    Sorted name_lt (map target_filter targets) /\
    (forall n, In n names <-> In n (map target_filter targets)) /\
    Forall (fun t =>
              fst (fst (fst t)) = butler parsedCmd /\
              snd (fst t) = output parsedCmd /\
              target_ids t <> [] /\
              target_ids t
              = map dataId (List.filter (with_filter (target_filter t))
                                        (refList parsedCmd)))
           targets.
Proof.
  intros Hnames.
  destruct (organize_groups (refList parsedCmd) names [] Hnames
              (NoDup_nil_2) filled_nil)
    as (d & Hrun & Hnd & Hfilled & Hids & Hkeys).
  unfold getTargetList. rewrite Hrun. simpl.
  assert (Hperm : Permutation (sorted (keys d)) (keys d)) by apply sorted_perm.
  destruct (targets_of_keys parsedCmd d (sorted (keys d)))
    as (targets & Htargets & Hmap & Hall).
  { intros n Hn. eapply Permutation_in; [exact Hperm | exact Hn]. }
  exists targets. split; [exact Htargets|]. rewrite Hmap. split; [|split].
  - apply Sorted_strict; [apply sorted_Sorted|].
    now rewrite Hperm.
  - intros n. split.
    + intros H. eapply Permutation_in; [symmetry; exact Hperm|].
      apply Hkeys. now right.
    + intros H. apply (Permutation_in _ Hperm) in H. apply Hkeys in H.
      simpl in H. tauto.
  - apply Forall_forall. intros t Ht.
    destruct (proj1 (Forall_forall _ _) Hall t Ht) as (Hb & Ho & Hids_t).
    split; [exact Hb|]. split; [exact Ho|].
    assert (Hin : In (target_filter t) (keys d)).
    { apply (Permutation_in _ Hperm). rewrite <- Hmap.
      apply in_map. now apply list_elem_of_In. }
    apply dict_get_keys in Hin. destruct Hin as [l Hl].
    assert (Hl' : ids_of (target_filter t) d = l)
      by (unfold ids_of; now rewrite Hl).
    rewrite Hids_t. split.
    + rewrite Hl'. exact (Hfilled _ _ Hl).
    + now rewrite (Hids (target_filter t)).
Qed.

(** Three references, two of filter r with one of filter g between them. *)
Definition visit_id (f : string) (visit : Z) : DataRef :=
  mkDataRef (mkDataId (Some f) {["visit" := PyInt visit]}).

Definition cmd_rgr : ParsedCmd string :=
  mkParsedCmd "butler" "out" [visit_id "r" 1; visit_id "g" 2; visit_id "r" 3].

Lemma getTargetList_groups_witness :
  exists targets,
    getTargetList cmd_rgr = Ok targets /\
    Sorted name_lt (map target_filter targets) /\
    (forall n, In n ["r"; "g"; "r"] <-> In n (map target_filter targets)) /\
    Forall (fun t =>
              fst (fst (fst t)) = butler cmd_rgr /\
              snd (fst t) = output cmd_rgr /\
              target_ids t <> [] /\
              target_ids t
              = map dataId (List.filter (with_filter (target_filter t))
                                        (refList cmd_rgr)))
           targets.
Proof.
  apply (getTargetList_groups cmd_rgr ["r"; "g"; "r"]).
  repeat constructor.
Defined.

Lemma organize_no_filter refs :
  forall acc ref,
    In ref refs ->
    filter_item (dataId ref) = None ->
    organize refs acc = Err (KeyError "filter").
Proof.
  induction refs as [|r refs IH]; intros acc ref Hin Hnone; [destruct Hin|].
  simpl. unfold dataId_filter at 1.
  destruct Hin as [->|Hin]; [now rewrite Hnone|].
  destruct (filter_item (dataId r)); simpl; [|reflexivity].
  now apply (IH _ ref).
Qed.

(** A reference whose data ID has no 'filter' item ends getTargetList with
    KeyError 'filter', wherever it stands among the references: no target
    is answered. *)
Theorem getTargetList_no_filter {Butler} (parsedCmd : ParsedCmd Butler) ref :
  In ref (refList parsedCmd) ->
  filter_item (dataId ref) = None ->
  getTargetList parsedCmd = Err (KeyError "filter").
Proof.
  intros Hin Hnone. unfold getTargetList.
  now rewrite (organize_no_filter _ [] ref Hin Hnone).
Qed.

(** A visit without a filter between two that have one. *)
Definition visit_only (visit : Z) : DataRef :=
  mkDataRef (mkDataId None {["visit" := PyInt visit]}).

Definition cmd_r_visit_g : ParsedCmd string :=
  mkParsedCmd "butler" "out" [visit_id "r" 1; visit_only 2; visit_id "g" 3].

Lemma getTargetList_no_filter_witness :
  getTargetList cmd_r_visit_g = Err (KeyError "filter").
Proof.
  apply (getTargetList_no_filter cmd_r_visit_g (visit_only 2)).
  - right. left. reflexivity.
  - reflexivity.
Defined.
